(** * Referral bot backend: store model, handlers and their properties

    Shallow embedding of the referral-crediting core of index.js (the
    current revision, with the HMAC-verified provider callback):

    - the Realtime Database is a record of three keyed collections
      ([users/<id>], [leaderboard/<id>], [installs/<id>]), each a finite map
      from key to record; a field that is [null] or absent in the stored
      object is [None]; an id is one child key: the theorems that depend
      on where a record lives assume the ids to be keys ([valid_key]), since
      for another id [db.ref] throws or addresses another node; stored
      numbers are integers; the order of keys is taken byte by byte and
      white space is ASCII: the theorems about the answer of a query do
      not depend on the order among entries with equal points, and those
      about texts assume the text to be ASCII ([ascii_only]) where white
      space matters;
    - every [await]ed database call is one atomic operation of type [Op];
      an [async] function is a tree of such operations ([Async]), so that a
      request can be run to completion ([run], [replay]) or interleaved
      with other requests at its suspension points ([play]);
    - [ServerValue.TIMESTAMP] is the server time [now] given to each run;
    - the HMAC and the JSON printer of the runtime are parameters. *)

From stdpp Require Import base option list sorting gmap strings.
From Stdlib Require Import ZArith String Ascii Bool Lia OrderedTypeEx.
From Stdlib Require Import DecimalString DecimalPos.

Local Open Scope Z_scope.
Local Open Scope string_scope.

(** ** JavaScript values as the code uses them *)

(** Truthiness of a value that is a string, [null] or [undefined]. *)
Definition truthy (s : option string) : bool :=
  match s with
  | Some s => negb (String.eqb s "")
  | None => false
  end.

(** [s || null] *)
Definition or_null (s : option string) : option string :=
  if truthy s then s else None.

(** [s || ''], and the text of a value already known to be a string. *)
Definition text (s : option string) : string :=
  match s with
  | Some s => s
  | None => ""
  end.

(** [n || 0] on a number that may be missing. *)
Definition or_zero (n : option Z) : Z :=
  match n with
  | Some n => n
  | None => 0
  end.

(** [String.prototype.toLowerCase], on the ASCII letters; the other bytes
    of the UTF-8 text are kept (no character outside ASCII lower-cases to a
    letter of the accepted status words). *)
Definition lower_ascii (c : ascii) : ascii :=
  let n := nat_of_ascii c in
  if ((65 <=? n) && (n <=? 90))%nat then ascii_of_nat (n + 32) else c.

Fixpoint toLowerCase (s : string) : string :=
  match s with
  | EmptyString => EmptyString
  | String c s' => String (lower_ascii c) (toLowerCase s')
  end.

(** ** Stored records *)

Record User := mkUser {
  id : option string;
  username : option string;
  joinedAt : option Z;
  referrer : option string;
  points : option Z;
  completedInstalls : option Z;
  taskCompleted : option bool
}.

Record LeaderboardEntry := mkEntry {
  lb_points : option Z;
  lb_username : option string;
  updatedAt : option Z
}.

Record InstallRecord := mkInstall {
  installId : string;
  userRefId : string;
  providerStatus : string;
  at_ : Z
}.

Record Db := mkDb {
  users : gmap string User;
  leaderboard : gmap string LeaderboardEntry;
  installs : gmap string InstallRecord
}.

Definition empty_db : Db := mkDb ∅ ∅ ∅.

Definition set_users (f : gmap string User -> gmap string User) (db : Db) : Db :=
  mkDb (f (users db)) (leaderboard db) (installs db).

Definition set_leaderboard
    (f : gmap string LeaderboardEntry -> gmap string LeaderboardEntry) (db : Db) : Db :=
  mkDb (users db) (f (leaderboard db)) (installs db).

Definition set_installs
    (f : gmap string InstallRecord -> gmap string InstallRecord) (db : Db) : Db :=
  mkDb (users db) (leaderboard db) (f (installs db)).

(** Points of a user or of a leaderboard entry, read as the code reads
    them ([x.points || 0]); a missing record has none. *)
Definition user_points (db : Db) (k : string) : Z :=
  match users db !! k with
  | Some u => or_zero (points u)
  | None => 0
  end.

Definition board_points (db : Db) (k : string) : Z :=
  match leaderboard db !! k with
  | Some e => or_zero (lb_points e)
  | None => 0
  end.

(** ** Transaction update functions

    Each function below is the callback handed to [ref.transaction] at one
    place of the source; [now] is the value the server substitutes for
    [ServerValue.TIMESTAMP]. *)

(** upsertUser: [userRef.transaction(current => ...)]. *)
Definition upsertUser_update (now : Z) (userId : string)
    (uname referrerId : option string) (current : option User) : User :=
  match current with
  | None =>
      {| id := Some userId;
         username := or_null uname;
         joinedAt := Some now;
         referrer := or_null referrerId;
         points := Some 0;
         completedInstalls := Some 0;
         taskCompleted := Some false |}
  | Some current =>
      let referrer' :=
        if negb (truthy (referrer current)) && truthy referrerId
        then referrerId else referrer current in
      let username' :=
        if negb (truthy (username current)) && truthy uname
        then uname else username current in
      {| id := id current;
         username := username';
         joinedAt := joinedAt current;
         referrer := referrer';
         points := points current;
         completedInstalls := completedInstalls current;
         taskCompleted := taskCompleted current |}
  end.

(** Callback, "mark their personal completion count". *)
Definition completed_update (cur : option User) : User :=
  match cur with
  | None =>
      {| id := None; username := None; joinedAt := None; referrer := None;
         points := None;
         completedInstalls := Some 1;
         taskCompleted := Some true |}
  | Some cur =>
      {| id := id cur;
         username := username cur;
         joinedAt := joinedAt cur;
         referrer := referrer cur;
         points := points cur;
         completedInstalls := Some (or_zero (completedInstalls cur) + 1);
         taskCompleted := Some true |}
  end.

(** Callback, "credit ONLY the direct referrer". *)
Definition credit_update (award : Z) (cur : option User) : User :=
  match cur with
  | None =>
      {| id := None; username := None; joinedAt := None; referrer := None;
         points := Some award;
         completedInstalls := None;
         taskCompleted := None |}
  | Some cur =>
      {| id := id cur;
         username := username cur;
         joinedAt := joinedAt cur;
         referrer := referrer cur;
         points := Some (or_zero (points cur) + award);
         completedInstalls := completedInstalls cur;
         taskCompleted := taskCompleted cur |}
  end.

(** bumpLeaderboard: [lbRef.transaction(cur => ...)]. *)
Definition bumpLeaderboard_update (now : Z) (delta : Z) (uname : option string)
    (cur : option LeaderboardEntry) : LeaderboardEntry :=
  match cur with
  | None =>
      {| lb_points := Some delta;
         lb_username := or_null uname;
         updatedAt := Some now |}
  | Some cur =>
      {| lb_points := Some (or_zero (lb_points cur) + delta);
         lb_username :=
           if truthy uname && negb (truthy (lb_username cur))
           then uname else lb_username cur;
         updatedAt := Some now |}
  end.

(** ** Ordering used by the leaderboard query and by [Array.prototype.sort] *)

Section Sorting.
Context {A : Type} (leb : A -> A -> bool).

Fixpoint insert_sorted (x : A) (l : list A) : list A :=
  match l with
  | [] => [x]
  | y :: l' => if leb x y then x :: y :: l' else y :: insert_sorted x l'
  end.

(** A stable sort: of two elements that compare equal, the one that came
    first stays first. *)
Fixpoint stable_sort (l : list A) : list A :=
  match l with
  | [] => []
  | x :: l' => insert_sorted x (stable_sort l')
  end.

End Sorting.

(** The order of child keys, taken here byte by byte (the database puts
    keys that are 32-bit integers first, in numeric order). *)
Definition key_leb (a b : string) : bool := String.leb a b.

(** [orderByChild('points')]: entries without the child come first, then
    by value, and by key among equal values. *)
Definition child_leb (a b : string * LeaderboardEntry) : bool :=
  match lb_points (snd a), lb_points (snd b) with
  | None, None => key_leb (fst a) (fst b)
  | None, Some _ => true
  | Some _, None => false
  | Some x, Some y => Z.ltb x y || (Z.eqb x y && key_leb (fst a) (fst b))
  end.

(** The last [n] elements of a list. *)
Definition take_last {A} (n : nat) (l : list A) : list A :=
  drop (List.length l - n)%nat l.

(** [db.ref('leaderboard').orderByChild('points').limitToLast(n)], and the
    object that [snap.val()] builds from it: the selected children,
    enumerated by key. *)
Definition limitToLast (n : Z) (board : gmap string LeaderboardEntry)
    : list (string * LeaderboardEntry) :=
  let ordered := stable_sort child_leb (map_to_list board) in
  let selected := take_last (Z.to_nat n) ordered in
  stable_sort (fun a b => key_leb (fst a) (fst b)) selected.

(** ** Database operations and asynchronous programs *)

(** The three transaction call sites on [users/<id>]. *)
Inductive UserTx : Type :=
| TxUpsert (uname referrerId : option string)
| TxCompleted
| TxCredit (award : Z).

Definition user_tx (now : Z) (userId : string) (t : UserTx) : option User -> User :=
  match t with
  | TxUpsert uname referrerId => upsertUser_update now userId uname referrerId
  | TxCompleted => completed_update
  | TxCredit award => credit_update award
  end.

(** One awaited call on the database; the index is the type of the value
    the [await] yields. *)
Inductive Op : Type -> Type :=
| InstallOnce (key : string) : Op (option InstallRecord)
| InstallSet (key : string) (userRef status : string) : Op unit
| UserOnce (key : string) : Op (option User)
| UserTransaction (key : string) (t : UserTx) : Op unit
| BoardTransaction (key : string) (delta : Z) (uname : option string) : Op unit
| BoardLimitToLast (n : Z) : Op (list (string * LeaderboardEntry)).

Definition exec (now : Z) {A} (op : Op A) (db : Db) : A * Db :=
  match op in Op T return T * Db with
  | InstallOnce key => (installs db !! key, db)
  | InstallSet key userRef status =>
      (tt, set_installs (insert key (mkInstall key userRef status now)) db)
  | UserOnce key => (users db !! key, db)
  | UserTransaction key t =>
      (tt, set_users (insert key (user_tx now key t (users db !! key))) db)
  | BoardTransaction key delta uname =>
      (tt, set_leaderboard
             (insert key (bumpLeaderboard_update now delta uname (leaderboard db !! key))) db)
  | BoardLimitToLast n => (limitToLast n (leaderboard db), db)
  end.

(** An [async] function body: it returns, or awaits one operation and
    continues with its result. *)
Inductive Async (R : Type) : Type :=
| Return (r : R)
| Await {A : Type} (op : Op A) (k : A -> Async R).

Arguments Return {R} r.
Arguments Await {R A} op k.

Fixpoint bind {R S} (p : Async R) (f : R -> Async S) : Async S :=
  match p with
  | Return r => f r
  | Await op k => Await op (fun a => bind (k a) f)
  end.

Definition call {A} (op : Op A) : Async A := Await op Return.

(** [let! x := p in q] is [const x = await p; q]. *)
Notation "'let!' x ':=' p 'in' q" := (bind p (fun x => q))
  (at level 10, x pattern, p at level 100, q at level 200).
Notation "'do!' p 'in' q" := (bind p (fun _ => q))
  (at level 10, p at level 100, q at level 200).

(** The journal of a run: the operations that were executed and what each
    one yielded, in order. *)
Inductive Entry : Type :=
| Executed {A : Type} (op : Op A) (a : A).

(** Run a request to completion, with no other request in between. *)
Fixpoint run {R} (now : Z) (p : Async R) (db : Db) : R * Db * list Entry :=
  match p with
  | Return r => (r, db, [])
  | Await op k =>
      let '(a, db') := exec now op db in
      let '(r, db'', log) := run now (k a) db' in
      (r, db'', Executed op a :: log)
  end.

Definition result {R} (x : R * Db * list Entry) : R := fst (fst x).
Definition final {R} (x : R * Db * list Entry) : Db := snd (fst x).
Definition journal {R} (x : R * Db * list Entry) : list Entry := snd x.

(** One scheduling step of a request: the code up to and including its
    next awaited operation. A request that has returned does nothing. *)
Definition step {R} (now : Z) (p : Async R) (db : Db) : Async R * Db * list Entry :=
  match p with
  | Return r => (Return r, db, [])
  | Await op k =>
      let '(a, db') := exec now op db in (k a, db', [Executed op a])
  end.

(** ** HTTP side of the provider callback *)

(** The parsed JSON body, [{ installId, userRefId, providerStatus }]; a
    field that is missing or [null] is [None]. *)
Record Body := mkBody {
  body_installId : option string;
  body_userRefId : option string;
  body_providerStatus : option string
}.

Record Request := mkRequest {
  signature : option string;   (* req.get('x-provider-signature') *)
  rawBody : option string;     (* req.rawBody, when rawSaver has run *)
  body : Body                  (* req.body || {} *)
}.

(** What [res.status(s).json({...})] sends. *)
Record Response := mkResponse {
  status : Z;
  ok : bool;
  ignored : bool;
  alreadyProcessed : bool;
  note : option string;
  error : option string
}.

Definition res_secret_not_set : Response :=
  mkResponse 500 false false false None (Some "provider secret not set").
Definition res_bad_signature : Response :=
  mkResponse 403 false false false None (Some "bad signature").
Definition res_missing_fields : Response :=
  mkResponse 400 false false false None (Some "missing fields").
Definition res_ignored : Response :=
  mkResponse 200 true true false None None.
Definition res_alreadyProcessed : Response :=
  mkResponse 200 true false true None None.
Definition res_user_not_found : Response :=
  mkResponse 200 true false false (Some "user-not-found") None.
Definition res_ok : Response :=
  mkResponse 200 true false false None None.
(** The [catch] branch: [res.status(500).json({ ok:false, error: err.message })]. *)
Definition res_caught (message : string) : Response :=
  mkResponse 500 false false false None (Some message).

(** [Buffer.from(s).length]: the header arrives as one character per byte,
    and UTF-8 spends two bytes on each character from 128 up. *)
Fixpoint byteLength (s : string) : nat :=
  match s with
  | EmptyString => 0%nat
  | String c s' =>
      ((if (nat_of_ascii c <? 128)%nat then 1 else 2) + byteLength s')%nat
  end.

(** [crypto.timingSafeEqual(Buffer.from(a), Buffer.from(b))]: it throws a
    RangeError when the two buffers differ in byte length ([None]). *)
Definition timingSafeEqual (a b : string) : option bool :=
  if (byteLength a =? byteLength b)%nat then Some (String.eqb a b) else None.

Definition timingSafeEqual_message : string :=
  "Input buffers must have the same byte length".

Definition okStatuses : list string :=
  ["completed"; "approved"; "paid"; "success"].

Definition okStatuses_has (s : string) : bool :=
  existsb (String.eqb s) okStatuses.

(** [String(providerStatus || 'completed').toLowerCase()] *)
Definition normalize_status (providerStatus : option string) : string :=
  toLowerCase (if truthy providerStatus then text providerStatus else "completed").

(** ** Leaderboard endpoint helpers *)

Definition is_space (c : ascii) : bool :=
  let n := nat_of_ascii c in
  ((n =? 32) || ((9 <=? n) && (n <=? 13)))%nat.

Definition is_digit (c : ascii) : bool :=
  let n := nat_of_ascii c in ((48 <=? n) && (n <=? 57))%nat.

Fixpoint skip_spaces (s : string) : string :=
  match s with
  | String c s' => if is_space c then skip_spaces s' else s
  | EmptyString => s
  end.

(** The leading run of decimal digits; [None] when there is none. *)
Fixpoint digits (acc : option Z) (s : string) : option Z :=
  match s with
  | String c s' =>
      if is_digit c
      then digits (Some (10 * or_zero acc + (Z.of_nat (nat_of_ascii c) - 48))) s'
      else acc
  | EmptyString => acc
  end.

(** [parseInt(s, 10)]; [None] is NaN. *)
Definition parseInt (s : string) : option Z :=
  match skip_spaces s with
  | String "-" s' => Z.opp <$> digits None s'
  | String "+" s' => digits None s'
  | s' => digits None s'
  end.

(** [Math.min(100, Math.max(1, parseInt(req.params.n || '50', 10)))];
    [Math.max] and [Math.min] return NaN when an argument is NaN. *)
Definition effective_n (param : string) : option Z :=
  match parseInt (if String.eqb param "" then "50" else param) with
  | Some v => Some (Z.min 100 (Z.max 1 v))
  | None => None
  end.

(** The comparator [(a,b) => (b.points||0) - (a.points||0)]: [a] may stay
    before [b] when the difference is not positive. *)
Definition by_points_desc (a b : string * LeaderboardEntry) : bool :=
  Z.leb (or_zero (lb_points (snd b)) - or_zero (lb_points (snd a))) 0.

(** ** Stand-ins for the runtime functions

    The theorems below hold for every HMAC and every JSON printer. To
    evaluate them on concrete requests, a digest that folds the key and the
    text into sixteen hexadecimal digits, and a printer that lists the
    three fields. *)

Definition hex_digit (n : nat) : ascii :=
  ascii_of_nat (if (n mod 16 <? 10)%nat then 48 + n mod 16 else 87 + n mod 16).

Fixpoint sample_mix (acc : nat) (s : string) : nat :=
  match s with
  | EmptyString => acc
  | String c s' => sample_mix ((acc * 31 + nat_of_ascii c) mod 251) s'
  end.

Fixpoint sample_hex (len : nat) (n : nat) : string :=
  match len with
  | O => EmptyString
  | S len' => String (hex_digit (n + len)) (sample_hex len' (n / 3))
  end.

Definition sample_hmac (key data : string) : string :=
  sample_hex 16 (sample_mix (sample_mix 7 key) data).

Definition sample_stringify (b : Body) : string :=
  "{" ++ text (body_installId b) ++ "," ++ text (body_userRefId b)
      ++ "," ++ text (body_providerStatus b) ++ "}".

(** A store with two registered users, B referred by A; a store where the
    referrer of B never registered; and signed callbacks for B. *)
Definition sample_secret : string := "s3cret".

Definition sample_db : Db :=
  mkDb
    (<["B" := mkUser (Some "B") (Some "bob") (Some 11) (Some "A")
                (Some 0) (Some 0) (Some false)]>
       (<["A" := mkUser (Some "A") (Some "alice") (Some 10) None
                   (Some 0) (Some 0) (Some false)]> ∅))
    ∅ ∅.

Definition sample_db_unregistered : Db :=
  mkDb
    (<["B" := mkUser (Some "B") (Some "bob") (Some 11) (Some "Z")
                (Some 0) (Some 0) (Some false)]> ∅)
    ∅ ∅.

Definition sample_signed (b : Body) : Request :=
  mkRequest (Some (sample_hmac sample_secret (sample_stringify b))) None b.

Definition sample_request : Request :=
  sample_signed (mkBody (Some "I1") (Some "B") (Some "COMPLETED")).


Definition sample_request_pending : Request :=
  sample_signed (mkBody (Some "I1") (Some "B") (Some "pending")).

Definition sample_request_empty_status : Request :=
  sample_signed (mkBody (Some "I1") (Some "B") (Some "")).

Definition sample_request_unsigned : Request :=
  mkRequest None None (mkBody (Some "I1") (Some "B") (Some "completed")).

(** ** The handlers *)

Section Handlers.

(** Process configuration, and the two runtime functions the callback
    relies on: [crypto.createHmac('sha256', key).update(data).digest('hex')]
    and [JSON.stringify]. *)
Variable PROVIDER_CALLBACK_SECRET : string.
Variable POINTS_FOR_COMPLETION : Z.
Variable hmac_sha256_hex : string -> string -> string.
Variable JSON_stringify : Body -> string.

Definition upsertUser (userId : string) (uname referrerId : option string) : Async unit :=
  call (UserTransaction userId (TxUpsert uname referrerId)).

Definition bumpLeaderboard (userId : string) (delta : Z) (uname : option string) : Async unit :=
  call (BoardTransaction userId delta uname).

(** [bot.onText(/\/start(?:\s+([^\s]+))?/, ...)]: the database part; the
    two messages that follow are sent to Telegram and touch no record. *)
Definition start (chatId : string) (refCode uname : option string) : Async unit :=
  let referrerId :=
    match refCode with
    | Some code => if truthy refCode && negb (String.eqb code chatId) then refCode else None
    | None => None
    end in
  upsertUser chatId uname referrerId.

(** The signed text: [req.rawBody || JSON.stringify(req.body || {})]. *)
Definition signed_text (req : Request) : string :=
  match rawBody req with
  | Some buf => buf
  | None => JSON_stringify (body req)
  end.

Definition expected_signature (req : Request) : string :=
  hmac_sha256_hex PROVIDER_CALLBACK_SECRET (signed_text req).

(** The condition of the 403 branch,
    [!sig || expected.length !== sig.length || !crypto.timingSafeEqual(...)],
    evaluated left to right; [None] when [timingSafeEqual] throws. *)
Definition signature_rejected (sig expected : string) : option bool :=
  if negb (truthy (Some sig)) then Some true
  else if negb (String.length expected =? String.length sig)%nat then Some true
  else negb <$> timingSafeEqual expected sig.

(** The part of the callback after the status check: ledger, completed
    user, referrer credit. *)
Definition process_install (installId userRefId status : string) : Async Response :=
  let! instSnap := call (InstallOnce installId) in
  match instSnap with
  | Some _ => Return res_alreadyProcessed
  | None =>
      do! call (InstallSet installId userRefId status) in
      let! userSnap := call (UserOnce userRefId) in
      match userSnap with
      | None => Return res_user_not_found
      | Some user =>
          do! call (UserTransaction userRefId TxCompleted) in
          let referrerId := or_null (referrer user) in
          match referrerId with
          | Some referrerId =>
              if negb (String.eqb referrerId userRefId) then
                let! refSnap := call (UserOnce referrerId) in
                let refUsername :=
                  match refSnap with
                  | Some refUser => or_null (username refUser)
                  | None => None
                  end in
                do! call (UserTransaction referrerId (TxCredit POINTS_FOR_COMPLETION)) in
                do! bumpLeaderboard referrerId POINTS_FOR_COMPLETION refUsername in
                Return res_ok
              else Return res_ok
          | None => Return res_ok
          end
      end
  end.

(** [app.post('/offers/callback', ...)] *)
Definition callback (req : Request) : Async Response :=
  if negb (truthy (Some PROVIDER_CALLBACK_SECRET)) then Return res_secret_not_set
  else
    let sig := text (signature req) in
    match signature_rejected sig (expected_signature req) with
    | None => Return (res_caught timingSafeEqual_message)
    | Some true => Return res_bad_signature
    | Some false =>
        let installId := body_installId (body req) in
        let userRefId := body_userRefId (body req) in
        if negb (truthy installId) || negb (truthy userRefId)
        then Return res_missing_fields
        else
          let status := normalize_status (body_providerStatus (body req)) in
          if negb (okStatuses_has status) then Return res_ignored
          else process_install (text installId) (text userRefId) status
    end.

(** [app.get('/leaderboard/top/:n', ...)]. The handler has no [try]: when
    [limitToLast] refuses its argument (it accepts positive integers only,
    so NaN is refused) the promise is rejected and no response is sent
    ([None]). *)
Definition leaderboard_top (param : string)
    : Async (option (list (string * LeaderboardEntry))) :=
  match effective_n param with
  | None => Return None
  | Some n =>
      let! obj := call (BoardLimitToLast n) in
      Return (Some (stable_sort by_points_desc obj))
  end.

(** ** Sequences of requests *)

Inductive Event : Type :=
| EvUpsert (userId : string) (uname referrerId : option string)
| EvStart (chatId : string) (refCode uname : option string)
| EvCallback (req : Request)
| EvTop (param : string).

(** Serve one request at server time [now]. *)
Definition serve (now : Z) (ev : Event) (db : Db) : Db * list Entry :=
  match ev with
  | EvUpsert userId uname referrerId =>
      let x := run now (upsertUser userId uname referrerId) db in (final x, journal x)
  | EvStart chatId refCode uname =>
      let x := run now (start chatId refCode uname) db in (final x, journal x)
  | EvCallback req =>
      let x := run now (callback req) db in (final x, journal x)
  | EvTop param =>
      let x := run now (leaderboard_top param) db in (final x, journal x)
  end.

(** Serve the requests one after the other (each one finishes before the
    next starts). *)
Fixpoint replay (evs : list (Z * Event)) (db : Db) : Db * list Entry :=
  match evs with
  | [] => (db, [])
  | (now, ev) :: evs' =>
      let '(db', log) := serve now ev db in
      let '(db'', log') := replay evs' db' in
      (db'', (log ++ log')%list)
  end.

(** The completion awards a journal credits to [key] as referrer: the
    deltas of the [TxCredit] transactions on [users/<key>], in order. *)
Definition entry_credit (key : string) (e : Entry) : list Z :=
  match e with
  | Executed (UserTransaction k (TxCredit award)) _ =>
      if String.eqb k key then [award] else []
  | Executed _ _ => []
  end.

Definition credits (key : string) (log : list Entry) : list Z :=
  flat_map (entry_credit key) log.

Definition sum_list (l : list Z) : Z := foldr Z.add 0 l.

(** The referrer stored for a user; [None] when there is no record or
    the record has none. *)
Definition referrer_of (db : Db) (key : string) : option string :=
  match users db !! key with
  | Some u => referrer u
  | None => None
  end.


(** The requests the server receives from outside: Telegram updates and
    HTTP requests. ([EvUpsert] is a direct call of the resolver.) *)
Definition is_request (ev : Event) : bool :=
  match ev with
  | EvUpsert _ _ _ => false
  | _ => true
  end.

(** No user is stored as their own referrer. *)
Definition no_self_referrer (db : Db) : Prop :=
  forall k, referrer_of db k <> Some k.

(** ** The server: any number of requests in flight *)

(** A request being served: what is left of its handler. *)
Inductive Thread : Type :=
| Running {R : Type} (p : Async R).

Definition returned (t : Thread) : bool :=
  match t with
  | Running p => match p with Return _ => true | Await _ _ => false end
  end.

Definition handler (ev : Event) : Thread :=
  match ev with
  | EvUpsert userId uname referrerId => Running (upsertUser userId uname referrerId)
  | EvStart chatId refCode uname => Running (start chatId refCode uname)
  | EvCallback req => Running (callback req)
  | EvTop param => Running (leaderboard_top param)
  end.

Record Server := mkServer {
  threads : list Thread;
  database : Db;
  history : list Entry
}.

(** The event loop either accepts a new request or lets the request in
    slot [i] run up to its next awaited operation. *)
Inductive Action : Type :=
| Arrive (ev : Event)
| Advance (i : nat).

Definition advance (now : Z) (t : Thread) (db : Db) : Thread * Db * list Entry :=
  match t with
  | Running p => let '(p', db', e) := step now p db in (Running p', db', e)
  end.

Definition act (now : Z) (a : Action) (s : Server) : Server :=
  match a with
  | Arrive ev => mkServer (threads s ++ [handler ev])%list (database s) (history s)
  | Advance i =>
      match threads s !! i with
      | Some t =>
          let '(t', db', e) := advance now t (database s) in
          mkServer (<[i := t']> (threads s)) db' (history s ++ e)%list
      | None => s
      end
  end.

Fixpoint play (acts : list (Z * Action)) (s : Server) : Server :=
  match acts with
  | [] => s
  | (now, a) :: acts' => play acts' (act now a s)
  end.

Definition boot : Server := mkServer [] empty_db [].

(** No request in flight. *)
Definition quiescent (s : Server) : bool := forallb returned (threads s).

(** Two callbacks with the same body arrive; both read the ledger before
    either writes it; then the first one runs to its end, then the second. *)
Definition racing_schedule (now : Z) (req : Request) : list (Z * Action) :=
  [(now, Arrive (EvCallback req)); (now, Arrive (EvCallback req));
   (now, Advance 0%nat); (now, Advance 1%nat);
   (now, Advance 0%nat); (now, Advance 0%nat); (now, Advance 0%nat);
   (now, Advance 0%nat); (now, Advance 0%nat); (now, Advance 0%nat);
   (now, Advance 1%nat); (now, Advance 1%nat); (now, Advance 1%nat);
   (now, Advance 1%nat); (now, Advance 1%nat); (now, Advance 1%nat)].

(** Bookkeeping for the proofs: the leaderboard deltas of a journal, and
    the delta a request still has to apply to the leaderboard, namely when
    its next operation is the [bumpLeaderboard] transaction. *)
Definition entry_bump (key : string) (e : Entry) : list Z :=
  match e with
  | Executed (BoardTransaction k delta _) _ =>
      if String.eqb k key then [delta] else []
  | Executed _ _ => []
  end.

Definition bumps (key : string) (log : list Entry) : list Z :=
  flat_map (entry_bump key) log.






(** Every [upsertUser] transaction of a request has a candidate other
    than the user's own id. *)
Definition upsert_guarded {A} (op : Op A) : Prop :=
  match op with
  | UserTransaction key (TxUpsert _ referrerId) => referrerId <> Some key
  | _ => True
  end.

Fixpoint guarded {R} (p : Async R) : Prop :=
  match p with
  | Return _ => True
  | Await op k => upsert_guarded op /\ forall a, guarded (k a)
  end.

Definition guarded_thread (t : Thread) : Prop :=
  match t with
  | Running p => guarded p
  end.

Definition from_outside (a : Action) : bool :=
  match a with
  | Arrive ev => is_request ev
  | Advance _ => true
  end.




(** ** Further observations of the store *)

(** A field of the user record stored under [key]; [None] when there is
    no record or the record lacks the field. *)
Definition field_of {A} (f : User -> option A) (db : Db) (key : string) : option A :=
  match users db !! key with
  | Some u => f u
  | None => None
  end.

Definition completed_of (db : Db) (key : string) : Z :=
  or_zero (field_of completedInstalls db key).

Definition board_username_of (db : Db) (key : string) : option string :=
  match leaderboard db !! key with
  | Some e => lb_username e
  | None => None
  end.

(** A property of every operation a request may still execute. *)
Fixpoint every_op {R} (P : forall A, Op A -> Prop) (p : Async R) : Prop :=
  match p with
  | Return _ => True
  | Await op k => P _ op /\ forall a, every_op P (k a)
  end.

Definition every_op_thread (P : forall A, Op A -> Prop) (t : Thread) : Prop :=
  match t with
  | Running p => every_op P p
  end.

(** What the handlers put in their operations: the configured award as
    the delta of every credit, and an accepted status in every install
    record. *)
Definition handler_op (A : Type) (op : Op A) : Prop :=
  match op with
  | UserTransaction _ (TxCredit award) => award = POINTS_FOR_COMPLETION
  | BoardTransaction _ delta _ => delta = POINTS_FOR_COMPLETION
  | InstallSet _ _ status => okStatuses_has status = true
  | _ => True
  end.

(** Every install record carries its key and an accepted status. *)
Definition installs_well_formed (db : Db) : Prop :=
  forall k rec, installs db !! k = Some rec ->
    installId rec = k /\ okStatuses_has (providerStatus rec) = true.

(** No stored display name is the empty string. *)
Definition usernames_not_empty (db : Db) : Prop :=
  (forall k u, users db !! k = Some u -> username u <> Some "")
  /\ (forall k e, leaderboard db !! k = Some e -> lb_username e <> Some "").

(** More signed sample callbacks. *)
Definition sample_request_no_install : Request :=
  sample_signed (mkBody None (Some "B") (Some "completed")).

Definition sample_request_for_C : Request :=
  sample_signed (mkBody (Some "I2") (Some "C") (Some "paid")).

(** A referred B, B referred C. *)
Definition sample_db_chain : Db :=
  mkDb
    (<["C" := mkUser (Some "C") (Some "carol") (Some 12) (Some "B")
                (Some 0) (Some 0) (Some false)]>
       (<["B" := mkUser (Some "B") (Some "bob") (Some 11) (Some "A")
                   (Some 0) (Some 0) (Some false)]>
          (<["A" := mkUser (Some "A") (Some "alice") (Some 10) None
                      (Some 0) (Some 0) (Some false)]> ∅)))
    ∅ ∅.

(** ** Links and the text of [/start] *)

(** The characters [encodeURIComponent] leaves as they are. *)
Definition unreserved (c : ascii) : bool :=
  let n := nat_of_ascii c in
  ((48 <=? n) && (n <=? 57) || (65 <=? n) && (n <=? 90) || (97 <=? n) && (n <=? 122)
   || (n =? 45) || (n =? 95) || (n =? 46) || (n =? 33) || (n =? 126) || (n =? 42)
   || (n =? 39) || (n =? 40) || (n =? 41))%nat.

Definition hex_upper (n : nat) : ascii :=
  ascii_of_nat (if (n <? 10)%nat then 48 + n else 55 + n).

(** [encodeURIComponent], on the bytes of the UTF-8 text: every byte that
    is not unreserved becomes [%XX]. *)
Fixpoint encodeURIComponent (s : string) : string :=
  match s with
  | EmptyString => EmptyString
  | String c s' =>
      if unreserved c then String c (encodeURIComponent s')
      else String "%" (String (hex_upper (nat_of_ascii c / 16))
                         (String (hex_upper (nat_of_ascii c mod 16))
                            (encodeURIComponent s')))
  end.

(** Reading [%XX] back, to show that no two texts get the same encoding. *)
Definition hex_value (c : ascii) : nat :=
  let n := nat_of_ascii c in
  if (n <? 58)%nat then (n - 48)%nat else (n - 55)%nat.

Fixpoint percent_decode (fuel : nat) (s : string) : string :=
  match fuel with
  | O => EmptyString
  | S fuel' =>
      match s with
      | String "%" (String h (String l s')) =>
          String (ascii_of_nat (16 * hex_value h + hex_value l))
                 (percent_decode fuel' s')
      | String c s' => String c (percent_decode fuel' s')
      | EmptyString => EmptyString
      end
  end.

(** [buildOfferLink] *)
Definition buildOfferLink (userRefId : string) : string :=
  "https://your-offer-provider.example.com/install?user="
  ++ encodeURIComponent userRefId.

(** What [bot.getMe()] gives: it rejects, or resolves to a user whose
    [username] may be missing. *)
Inductive GetMe : Type :=
| GetMeRejects
| GetMeResolves (username : option string).

(** [ensureBotUsername], with the module variable [BOT_USERNAME] passed in
    and out. The result is [None] when [getMe] rejects; otherwise the
    username returned, which may be [undefined]. *)
Definition ensureBotUsername (BOT_USERNAME : option string) (getMe : GetMe)
    : option (option string) * option string :=
  if truthy BOT_USERNAME then (Some BOT_USERNAME, BOT_USERNAME)
  else
    match getMe with
    | GetMeRejects => (None, BOT_USERNAME)
    | GetMeResolves username => (Some username, username)
    end.

(** A value inside a template literal. *)
Definition interpolate (s : option string) : string :=
  match s with
  | Some s => s
  | None => "undefined"
  end.

(** [buildReferralLink]: [None] when [getMe] rejects. *)
Definition buildReferralLink (BOT_USERNAME : option string) (getMe : GetMe)
    (refId : string) : option string * option string :=
  match ensureBotUsername BOT_USERNAME getMe with
  | (Some uname, cache) =>
      (Some ("https://t.me/" ++ interpolate uname ++ "?start="
             ++ encodeURIComponent refId), cache)
  | (None, cache) => (None, cache)
  end.

(** Does [s] begin with [p]; what follows the first occurrence of
    ["/start"] in a text. *)
Fixpoint starts_with (p s : string) : bool :=
  match p, s with
  | EmptyString, _ => true
  | String a p', String b s' => Ascii.eqb a b && starts_with p' s'
  | String _ _, EmptyString => false
  end.

Fixpoint drop_chars (n : nat) (s : string) : string :=
  match n, s with
  | O, _ => s
  | S n', String _ s' => drop_chars n' s'
  | S _, EmptyString => EmptyString
  end.

Fixpoint after_first (p s : string) : option string :=
  if starts_with p s then Some (drop_chars (String.length p) s)
  else
    match s with
    | EmptyString => None
    | String _ s' => after_first p s'
    end.

(** The longest prefix without white space. *)
Fixpoint non_space_prefix (s : string) : string :=
  match s with
  | String c s' => if is_space c then EmptyString else String c (non_space_prefix s')
  | EmptyString => EmptyString
  end.

(** [/\/start(?:\s+([^\s]+))?/.exec(text)], for a text whose white space
    is ASCII: [None] when the text does not match, else the first capture
    group ([Some None] when the optional group did not take part). The
    regular expression is not anchored: it matches at the first ["/start"]
    anywhere in the text; the group needs at least one white space and then
    at least one other character. *)
Definition match_start (text : string) : option (option string) :=
  match after_first "/start" text with
  | None => None
  | Some rest =>
      let rest' := skip_spaces rest in
      if (String.length rest' <? String.length rest)%nat
         && negb (String.eqb rest' "")
      then Some (Some (non_space_prefix rest'))
      else Some None
  end.

(** A Telegram message with text: [String(msg.chat.id)], [msg.text], and
    the display name computed from [msg.from]. *)
Record Message := mkMessage {
  chat_id : string;
  msg_text : string;
  from_name : option string
}.

(** An id as Telegram writes it: decimal digits, with a sign for groups. *)
Definition id_char (c : ascii) : bool :=
  is_digit c || Ascii.eqb c "-".

Fixpoint id_chars (s : string) : bool :=
  match s with
  | EmptyString => true
  | String c s' => id_char c && id_chars s'
  end.

(** [bot.onText(/\/start(?:\s+([^\s]+))?/, ...)] applied to a message: the
    handler runs when the text matches, with the capture as referral code. *)
Definition on_start (msg : Message) : Async unit :=
  match match_start (msg_text msg) with
  | None => Return tt
  | Some refCode => start (chat_id msg) refCode (from_name msg)
  end.

Fixpoint all_chars (f : ascii -> bool) (s : string) : bool :=
  match s with
  | EmptyString => true
  | String c s' => f c && all_chars f s'
  end.

(** A schedule that registers A and B and serves one completion for B;
    a later one; a request for a numeric id; a leaderboard of three. *)
Definition sample_acts : list (Z * Action) :=
  [(10, Arrive (EvStart "A" None (Some "alice"))); (10, Advance 0%nat);
   (11, Arrive (EvStart "B" (Some "A") (Some "bob"))); (11, Advance 1%nat);
   (12, Arrive (EvCallback sample_request));
   (12, Advance 2%nat); (12, Advance 2%nat); (12, Advance 2%nat);
   (12, Advance 2%nat); (12, Advance 2%nat); (12, Advance 2%nat);
   (12, Advance 2%nat); (12, Advance 2%nat)].

Definition sample_acts_later : list (Z * Action) :=
  [(13, Arrive (EvStart "A" (Some "B") (Some "alicia"))); (13, Advance 3%nat);
   (14, Arrive (EvCallback sample_request_for_C)); (14, Advance 4%nat);
   (14, Advance 4%nat); (14, Advance 4%nat)].

Definition sample_request_1002 : Request :=
  sample_signed (mkBody (Some "I9") (Some "1002") (Some "approved")).

Definition sample_board : Db :=
  mkDb ∅
    (<["A" := mkEntry (Some 3) (Some "alice") (Some 10)]>
       (<["B" := mkEntry (Some 5) (Some "bob") (Some 11)]>
          (<["C" := mkEntry (Some 1) None (Some 12)]> ∅)))
    ∅.


(** ** The [/leaderboard] and [/broadcast] commands *)

Definition newline : string := String (ascii_of_nat 10) EmptyString.

(** A number inside a template literal; the stored numbers are integers. *)
Definition show_number (z : Z) : string := NilZero.string_of_int (Z.to_int z).

(** [lines.join('\n')] *)
Fixpoint join (sep : string) (l : list string) : string :=
  match l with
  | [] => ""
  | [x] => x
  | x :: rest => x ++ sep ++ join sep rest
  end.

(** One line of the ranking: [`${i+1}. ${name} — ${it.points} pts`], with
    [name] the [@username] when there is one, else the user id. *)
Definition line (i : nat) (it : string * LeaderboardEntry) : string :=
  let name :=
    if truthy (lb_username (snd it)) then "@" ++ text (lb_username (snd it))
    else fst it in
  show_number (Z.of_nat i + 1) ++ ". " ++ name ++ " — "
  ++ match lb_points (snd it) with
     | Some p => show_number p
     | None => "undefined"
     end
  ++ " pts".

Definition leaderboard_empty_text : string :=
  "🏁 Leaderboard is empty. Share your link!".

Definition leaderboard_header : string :=
  "🏆 Top 50 Referrers (completed installs only):".

(** [bot.onText(/\/leaderboard$/, ...)]: the text of the message sent to
    the chat. *)
Definition on_leaderboard : Async string :=
  let! obj := call (BoardLimitToLast 50) in
  let arr := stable_sort by_points_desc obj in
  match arr with
  | [] => Return leaderboard_empty_text
  | _ :: _ =>
      Return (leaderboard_header ++ newline ++ newline
              ++ join newline (imap line arr))
  end.

(** [String.prototype.trim], white space being ASCII. *)
Fixpoint trim_end (s : string) : string :=
  match s with
  | EmptyString => EmptyString
  | String c s' =>
      let t := trim_end s' in
      if is_space c && String.eqb t "" then EmptyString else String c t
  end.

Definition trim (s : string) : string := trim_end (skip_spaces s).

Definition broadcast_sent_text : string := "✅ Broadcast sent.".

(** The loop of [/broadcast]: one [bot.sendMessage(uid, text)] per id; a
    rejected send is caught and logged, and the loop goes on. The result is
    the list of sends, in order, and the ids whose send was rejected. *)
Fixpoint broadcast_loop (sendMessage : string -> string -> bool)
    (uids : list string) (message : string)
    : list (string * string) * list string :=
  match uids with
  | [] => ([], [])
  | uid :: rest =>
      let '(calls, warned) := broadcast_loop sendMessage rest message in
      ((uid, message) :: calls,
       if sendMessage uid message then warned else uid :: warned)
  end.

(** [bot.onText(/\/broadcast\s+([\s\S]+)/, ...)] for a message from
    [chatId] whose capture is [capture], against the users read by
    [db.ref('users').once('value')]. [Object.keys] enumerates the ids in an
    order that is not modelled: the properties below speak of membership
    only. *)
Definition on_broadcast (ADMIN_CHAT_ID : option string)
    (sendMessage : string -> string -> bool) (chatId capture : string) (db : Db)
    : list (string * string) * list string :=
  if negb (truthy ADMIN_CHAT_ID) || negb (String.eqb chatId (text ADMIN_CHAT_ID))
  then ([], [])
  else
    let message := trim capture in
    let '(calls, warned) :=
      broadcast_loop sendMessage (map_to_list (users db)).*1 message in
    (calls ++ [(text ADMIN_CHAT_ID, broadcast_sent_text)], warned)%list.

(** ** The earlier revision of index.js

    The file holds an earlier revision of the same server. Its [/start]
    and its provider callback differ from the current ones: the records it
    creates have no [id] and no [taskCompleted]; the signature is checked
    only when a secret is configured, always against
    [JSON.stringify(req.body)]; the 403 body has no [error] and the 400 body
    says [reason]. [bumpLeaderboard] and the credit of the referrer are the
    same functions. The earlier revision is modelled with explicit state
    passing, one request at a time. *)

Definition legacy_upsertUser_update (now : Z) (uname referrerId : option string)
    (current : option User) : User :=
  match current with
  | None =>
      {| id := None;
         username := or_null uname;
         joinedAt := Some now;
         referrer := or_null referrerId;
         points := Some 0;
         completedInstalls := Some 0;
         taskCompleted := None |}
  | Some current =>
      let referrer' :=
        if negb (truthy (referrer current)) && truthy referrerId
        then referrerId else referrer current in
      let username' :=
        if negb (truthy (username current)) && truthy uname
        then uname else username current in
      {| id := id current;
         username := username';
         joinedAt := joinedAt current;
         referrer := referrer';
         points := points current;
         completedInstalls := completedInstalls current;
         taskCompleted := taskCompleted current |}
  end.

Definition legacy_completed_update (cur : option User) : User :=
  match cur with
  | None =>
      {| id := None; username := None; joinedAt := None; referrer := None;
         points := None;
         completedInstalls := Some 1;
         taskCompleted := None |}
  | Some cur =>
      {| id := id cur;
         username := username cur;
         joinedAt := joinedAt cur;
         referrer := referrer cur;
         points := points cur;
         completedInstalls := Some (or_zero (completedInstalls cur) + 1);
         taskCompleted := taskCompleted cur |}
  end.

Definition legacy_upsertUser (now : Z) (chatId : string)
    (uname referrerId : option string) (db : Db) : Db :=
  set_users
    (insert chatId (legacy_upsertUser_update now uname referrerId (users db !! chatId)))
    db.

Definition legacy_start (now : Z) (chatId : string) (ref uname : option string)
    (db : Db) : Db :=
  let referrerId :=
    match ref with
    | Some code => if truthy ref && negb (String.eqb code chatId) then ref else None
    | None => None
    end in
  legacy_upsertUser now chatId uname referrerId db.

(** What the earlier callback sends. *)
Record LegacyResponse := mkLegacyResponse {
  legacy_status : Z;
  legacy_ok : bool;
  legacy_ignored : bool;
  legacy_alreadyProcessed : bool;
  legacy_note : option string;
  legacy_reason : option string;
  legacy_error : option string
}.

Definition legacy_res_forbidden : LegacyResponse :=
  mkLegacyResponse 403 false false false None None None.
Definition legacy_res_missing_fields : LegacyResponse :=
  mkLegacyResponse 400 false false false None (Some "missing fields") None.
Definition legacy_res_ignored : LegacyResponse :=
  mkLegacyResponse 200 true true false None None None.
Definition legacy_res_alreadyProcessed : LegacyResponse :=
  mkLegacyResponse 200 true false true None None None.
Definition legacy_res_user_not_found : LegacyResponse :=
  mkLegacyResponse 200 true false false (Some "user-not-found") None None.
Definition legacy_res_ok : LegacyResponse :=
  mkLegacyResponse 200 true false false None None None.
Definition legacy_res_caught (message : string) : LegacyResponse :=
  mkLegacyResponse 500 false false false None None (Some message).

Definition legacy_process_install (now : Z) (installId userRefId status : string)
    (db : Db) : LegacyResponse * Db :=
  match installs db !! installId with
  | Some _ => (legacy_res_alreadyProcessed, db)
  | None =>
      let db1 :=
        set_installs (insert installId (mkInstall installId userRefId status now)) db in
      match users db1 !! userRefId with
      | None => (legacy_res_user_not_found, db1)
      | Some user =>
          let referrerId := or_null (referrer user) in
          let db2 :=
            set_users
              (insert userRefId (legacy_completed_update (users db1 !! userRefId)))
              db1 in
          match referrerId with
          | Some referrerId =>
              if negb (String.eqb referrerId userRefId) then
                let refUsername :=
                  match users db2 !! referrerId with
                  | Some refUser => or_null (username refUser)
                  | None => None
                  end in
                let db3 :=
                  set_users
                    (insert referrerId
                       (credit_update POINTS_FOR_COMPLETION (users db2 !! referrerId)))
                    db2 in
                let db4 :=
                  set_leaderboard
                    (insert referrerId
                       (bumpLeaderboard_update now POINTS_FOR_COMPLETION refUsername
                          (leaderboard db3 !! referrerId)))
                    db3 in
                (legacy_res_ok, db4)
              else (legacy_res_ok, db2)
          | None => (legacy_res_ok, db2)
          end
      end
  end.

(** The earlier [app.post('/offers/callback', ...)]. *)
Definition legacy_callback (now : Z) (req : Request) (db : Db)
    : LegacyResponse * Db :=
  let checked :=
    if truthy (Some PROVIDER_CALLBACK_SECRET) then
      signature_rejected (text (signature req))
        (hmac_sha256_hex PROVIDER_CALLBACK_SECRET (JSON_stringify (body req)))
    else Some false in
  match checked with
  | None => (legacy_res_caught timingSafeEqual_message, db)
  | Some true => (legacy_res_forbidden, db)
  | Some false =>
      let installId := body_installId (body req) in
      let userRefId := body_userRefId (body req) in
      if negb (truthy installId) || negb (truthy userRefId)
      then (legacy_res_missing_fields, db)
      else
        let status := normalize_status (body_providerStatus (body req)) in
        if negb (okStatuses_has status) then (legacy_res_ignored, db)
        else legacy_process_install now (text installId) (text userRefId) status db
  end.

(** A user record without its [taskCompleted] flag. *)
Definition without_flag (u : User) : User :=
  {| id := id u; username := username u; joinedAt := joinedAt u;
     referrer := referrer u; points := points u;
     completedInstalls := completedInstalls u; taskCompleted := None |}.

(** ** Reading a decimal numeral

    The value of a numeral read from its first digit on, as [parseInt]
    accumulates it; and whether a text can continue a numeral. *)

Fixpoint uint_value (acc : Z) (d : Decimal.uint) : Z :=
  match d with
  | Decimal.Nil => acc
  | Decimal.D0 l => uint_value (10 * acc + 0) l
  | Decimal.D1 l => uint_value (10 * acc + 1) l
  | Decimal.D2 l => uint_value (10 * acc + 2) l
  | Decimal.D3 l => uint_value (10 * acc + 3) l
  | Decimal.D4 l => uint_value (10 * acc + 4) l
  | Decimal.D5 l => uint_value (10 * acc + 5) l
  | Decimal.D6 l => uint_value (10 * acc + 6) l
  | Decimal.D7 l => uint_value (10 * acc + 7) l
  | Decimal.D8 l => uint_value (10 * acc + 8) l
  | Decimal.D9 l => uint_value (10 * acc + 9) l
  end.

Definition no_digit_ahead (s : string) : bool :=
  match s with
  | String c _ => negb (is_digit c)
  | EmptyString => true
  end.


(** ** Keys and paths of the database

    The handlers build every location by interpolating an id into a path
    ([db.ref(`users/${id}`)], and likewise under [installs] and
    [leaderboard]). The database splits a path at ['/'] and drops the empty
    pieces, [db.ref] throws for a path that holds one of [. # $ [ ]], and a
    key holds no control character and at most 768 bytes. [exec] is the
    database on ids that are keys: one id, one child. For any other id the
    location is another one (a node inside a record, or the record of
    another id) or the call throws, and the theorems that depend on where a
    record lives assume the ids to be keys. *)

Definition key_char (c : ascii) : bool :=
  let n := nat_of_ascii c in
  negb ((n <? 32) || (n =? 127) || (n =? 46) || (n =? 35) || (n =? 36)
        || (n =? 91) || (n =? 93) || (n =? 47))%nat.

Definition valid_key (s : string) : bool :=
  negb (String.eqb s "") && all_chars key_char s && (String.length s <=? 768)%nat.

(** A value that the code uses as an id only when it is truthy. *)
Definition valid_code (c : option string) : bool :=
  match c with
  | Some s => String.eqb s "" || valid_key s
  | None => true
  end.

(** The ids that a request carries. *)
Definition valid_event (ev : Event) : bool :=
  match ev with
  | EvUpsert userId _ referrerId => valid_key userId && valid_code referrerId
  | EvStart chatId refCode _ => valid_key chatId && valid_code refCode
  | EvCallback req =>
      valid_code (body_installId (body req)) && valid_code (body_userRefId (body req))
  | EvTop _ => true
  end.

Definition valid_action (a : Action) : bool :=
  match a with
  | Arrive ev => valid_event ev
  | Advance _ => true
  end.

(** The pieces of a path: split at ['/'], empty pieces dropped. *)
Fixpoint path_pieces_from (piece : string) (s : string) : list string :=
  let close := if String.eqb piece "" then [] else [piece] in
  match s with
  | EmptyString => close
  | String c s' =>
      if Ascii.eqb c "/" then (close ++ path_pieces_from "" s')%list
      else path_pieces_from (piece ++ String c "") s'
  end.

Definition path_pieces (path : string) : list string := path_pieces_from "" path.

(** A text without characters outside ASCII: its white space is that of
    [is_space]. *)
Definition ascii_only (s : string) : bool :=
  all_chars (fun c => (nat_of_ascii c <? 128)%nat) s.

(** ** Basic facts *)

Lemma truthy_Some (s : string) : truthy (Some s) = true <-> s <> "".
Proof.
  unfold truthy. destruct (String.eqb_spec s ""); simpl; split; congruence.
Qed.

Lemma truthy_text (s : option string) : truthy s = true -> s = Some (text s).
Proof. destruct s; simpl; [reflexivity | discriminate]. Qed.

Lemma or_null_truthy (s : option string) : truthy s = true -> or_null s = s.
Proof. unfold or_null. intros ->. reflexivity. Qed.

Lemma or_null_not_empty (s : option string) : or_null s <> Some "".
Proof.
  unfold or_null. destruct (truthy s) eqn:E; [| discriminate].
  intros ->. discriminate.
Qed.

(** The header passes the check exactly when it is non-empty and equal to
    the expected digest. *)
Lemma signature_rejected_false (sig expected : string) :
  signature_rejected sig expected = Some false <-> sig <> "" /\ sig = expected.
Proof.
  unfold signature_rejected, timingSafeEqual. split.
  - destruct (truthy (Some sig)) eqn:T; simpl; [| discriminate].
    apply truthy_Some in T.
    destruct (String.length expected =? String.length sig)%nat; simpl; [| discriminate].
    destruct (byteLength expected =? byteLength sig)%nat; simpl; [| discriminate].
    destruct (String.eqb_spec expected sig); simpl; [auto | discriminate].
  - intros [Hne <-]. apply truthy_Some in Hne. rewrite Hne. simpl.
    rewrite !Nat.eqb_refl. simpl. rewrite String.eqb_refl. reflexivity.
Qed.

(** A callback that passes the signature, field and status checks runs
    [process_install]. *)
Lemma callback_accepted (req : Request) (iid uid : string) :
  PROVIDER_CALLBACK_SECRET <> "" ->
  signature req = Some (expected_signature req) ->
  expected_signature req <> "" ->
  body_installId (body req) = Some iid -> iid <> "" ->
  body_userRefId (body req) = Some uid -> uid <> "" ->
  okStatuses_has (normalize_status (body_providerStatus (body req))) = true ->
  callback req
  = process_install iid uid (normalize_status (body_providerStatus (body req))).
Proof.
  intros Hsec Hsig Hexp Hi Hine Hu Hune Hst. unfold callback.
  apply truthy_Some in Hsec, Hine, Hune. rewrite Hsec. simpl.
  assert (Hs : signature_rejected (text (signature req)) (expected_signature req)
               = Some false).
  { apply signature_rejected_false. rewrite Hsig. simpl. auto. }
  rewrite Hs, Hi, Hu, Hine, Hune, Hst. reflexivity.
Qed.

(** ** The ledger and the completion processor *)

(** An install that is already ledgered: one read, nothing written. *)
Lemma process_install_duplicate (now : Z) (iid uid st : string) (db : Db) (rec : InstallRecord) :
  installs db !! iid = Some rec ->
  run now (process_install iid uid st) db
  = (res_alreadyProcessed, db, [Executed (InstallOnce iid) (Some rec)]).
Proof.
  intros H. unfold process_install. simpl. rewrite H. reflexivity.
Qed.

(** A first install of an unknown user: ledgered, nobody credited. *)
Lemma process_install_unknown_user (now : Z) (iid uid st : string) (db : Db) :
  installs db !! iid = None ->
  users db !! uid = None ->
  run now (process_install iid uid st) db
  = (res_user_not_found,
     set_installs (insert iid (mkInstall iid uid st now)) db,
     [Executed (InstallOnce iid) None;
      Executed (InstallSet iid uid st) tt;
      Executed (UserOnce uid) None]).
Proof.
  intros Hi Hu. unfold process_install. simpl. rewrite Hi. simpl. rewrite Hu.
  reflexivity.
Qed.

(** A first install of a user without a referrer to credit (none stored,
    or the user's own id). *)
Lemma process_install_no_referrer (now : Z) (iid uid st : string) (db : Db) (usr : User) :
  installs db !! iid = None ->
  users db !! uid = Some usr ->
  or_null (referrer usr) = None \/ or_null (referrer usr) = Some uid ->
  run now (process_install iid uid st) db
  = (res_ok,
     set_users (insert uid (completed_update (Some usr)))
       (set_installs (insert iid (mkInstall iid uid st now)) db),
     [Executed (InstallOnce iid) None;
      Executed (InstallSet iid uid st) tt;
      Executed (UserOnce uid) (Some usr);
      Executed (UserTransaction uid TxCompleted) tt]).
Proof.
  intros Hi Hu Hr. unfold process_install. simpl. rewrite Hi. simpl. rewrite Hu.
  simpl. rewrite Hu.
  destruct Hr as [-> | ->]; [reflexivity |].
  rewrite String.eqb_refl. reflexivity.
Qed.

(** A first install of a user with a referrer: ledgered, the user marked,
    the referrer's points and leaderboard entry raised by the award. *)
Lemma process_install_credit (now : Z) (iid uid st : string) (db : Db) (usr : User) (r : string) :
  installs db !! iid = None ->
  users db !! uid = Some usr ->
  or_null (referrer usr) = Some r ->
  r <> uid ->
  run now (process_install iid uid st) db
  = (res_ok,
     mkDb
       (<[r := credit_update POINTS_FOR_COMPLETION (users db !! r)]>
          (<[uid := completed_update (Some usr)]> (users db)))
       (<[r := bumpLeaderboard_update now POINTS_FOR_COMPLETION
                 (match users db !! r with
                  | Some refUser => or_null (username refUser)
                  | None => None
                  end)
                 (leaderboard db !! r)]> (leaderboard db))
       (<[iid := mkInstall iid uid st now]> (installs db)),
     [Executed (InstallOnce iid) None;
      Executed (InstallSet iid uid st) tt;
      Executed (UserOnce uid) (Some usr);
      Executed (UserTransaction uid TxCompleted) tt;
      Executed (UserOnce r) (users db !! r);
      Executed (UserTransaction r (TxCredit POINTS_FOR_COMPLETION)) tt;
      Executed (BoardTransaction r POINTS_FOR_COMPLETION
                  (match users db !! r with
                   | Some refUser => or_null (username refUser)
                   | None => None
                   end)) tt]).
Proof.
  intros Hi Hu Hr Hne. unfold process_install. simpl. rewrite Hi. simpl. rewrite Hu.
  simpl. rewrite Hu, Hr.
  destruct (String.eqb_spec r uid) as [-> | _]; [contradiction |]. simpl.
  rewrite !lookup_insert_ne by congruence. reflexivity.
Qed.

(** Whatever the path, the ledger ends with a record for the install, and
    only that record can be new. *)
Lemma process_install_installs (now : Z) (iid uid st : string) (db : Db) :
  installs (final (run now (process_install iid uid st) db))
  = match installs db !! iid with
    | Some _ => installs db
    | None => <[iid := mkInstall iid uid st now]> (installs db)
    end.
Proof.
  destruct (installs db !! iid) as [rec |] eqn:Hi.
  - rewrite (process_install_duplicate _ _ _ _ _ rec Hi). reflexivity.
  - destruct (users db !! uid) as [usr |] eqn:Hu.
    + destruct (or_null (referrer usr)) as [r |] eqn:Hr.
      * destruct (String.eqb_spec r uid) as [-> | Hne].
        -- rewrite (process_install_no_referrer _ _ _ _ _ usr Hi Hu); auto.
        -- rewrite (process_install_credit _ _ _ _ _ usr r Hi Hu Hr Hne). reflexivity.
      * rewrite (process_install_no_referrer _ _ _ _ _ usr Hi Hu); auto.
    + rewrite (process_install_unknown_user _ _ _ _ _ Hi Hu). reflexivity.
Qed.


Lemma credit_update_points (award : Z) (cur : option User) :
  or_zero (points (credit_update award cur))
  = match cur with Some u => or_zero (points u) | None => 0 end + award.
Proof. destruct cur; reflexivity. Qed.

Lemma bumpLeaderboard_update_points (now delta : Z) (uname : option string)
    (cur : option LeaderboardEntry) :
  or_zero (lb_points (bumpLeaderboard_update now delta uname cur))
  = match cur with Some e => or_zero (lb_points e) | None => 0 end + delta.
Proof. destruct cur; reflexivity. Qed.



(** C6, as amended. A valid, signed callback whose [providerStatus] is a
    non-empty string that, in lower case, is none of completed, approved,
    paid, success, is answered 200 with [ignored: true]; no database
    operation is issued, so no install, user or leaderboard record changes. *)
Theorem non_success_status_ignored
    (now : Z) (req : Request) (db : Db) (iid uid s : string) :
  PROVIDER_CALLBACK_SECRET <> "" ->
  signature req = Some (expected_signature req) ->
  expected_signature req <> "" ->
  body_installId (body req) = Some iid -> iid <> "" ->
  body_userRefId (body req) = Some uid -> uid <> "" ->
  body_providerStatus (body req) = Some s -> s <> "" ->
  okStatuses_has (toLowerCase s) = false ->
  run now (callback req) db = (res_ignored, db, []).
Proof.
  intros Hsec Hsig Hexp Hi Hine Hu Hune Hs Hsne Hst. unfold callback.
  apply truthy_Some in Hsec, Hine, Hune, Hsne. rewrite Hsec. simpl.
  assert (Hok : signature_rejected (text (signature req)) (expected_signature req)
                = Some false).
  { apply signature_rejected_false. rewrite Hsig. simpl. auto. }
  rewrite Hok, Hi, Hu, Hine, Hune. simpl.
  unfold normalize_status. rewrite Hs, Hsne. simpl. rewrite Hst. reflexivity.
Qed.

(** C7, as amended. A callback whose signature header is missing, or
    differs from the expected digest without making the byte-wise comparison
    fail (the header has another length than the digest, or the same length
    in bytes), is rejected before any database operation: with 403 when the
    shared secret is configured, with 500 when it is not. The stored state
    is unchanged, whatever the payload. *)
Theorem bad_signature_rejected (now : Z) (req : Request) (db : Db) :
  signature req = None \/ text (signature req) <> expected_signature req ->
  (String.length (text (signature req)) = String.length (expected_signature req) ->
   byteLength (text (signature req)) = byteLength (expected_signature req)) ->
  run now (callback req) db
  = (if truthy (Some PROVIDER_CALLBACK_SECRET)
     then res_bad_signature else res_secret_not_set, db, []).
Proof.
  intros Hbad Hbytes. unfold callback.
  destruct (truthy (Some PROVIDER_CALLBACK_SECRET)); simpl; [| reflexivity].
  unfold signature_rejected, timingSafeEqual.
  destruct (truthy (Some (text (signature req)))) eqn:T; simpl; [| reflexivity].
  destruct (Nat.eqb_spec (String.length (expected_signature req))
              (String.length (text (signature req)))) as [Hlen | Hlen];
    simpl; [| reflexivity].
  rewrite (Hbytes (eq_sym Hlen)), Nat.eqb_refl. simpl.
  destruct (String.eqb_spec (expected_signature req) (text (signature req)))
    as [Heq | Hneq]; simpl; [| reflexivity].
  destruct Hbad as [Hnone | Hdiff].
  - rewrite Hnone in T. discriminate.
  - congruence.
Qed.



(** ** What a callback can do, path by path *)

(** A callback either answers at once, with no database operation, or
    runs [process_install] on the two ids of its body. *)
Lemma callback_cases (req : Request) :
  (exists res, callback req = Return res)
  \/ (exists iid st,
        body_installId (body req) = Some iid
        /\ callback req = process_install iid (text (body_userRefId (body req))) st).
Proof.
  unfold callback.
  destruct (truthy (Some PROVIDER_CALLBACK_SECRET)); simpl; [| eauto].
  destruct (signature_rejected _ _) as [[|] |]; [eauto | | eauto].
  destruct (truthy (body_installId (body req))) eqn:Ti; simpl; [| eauto].
  destruct (truthy (body_userRefId (body req))) eqn:Tu; simpl; [| eauto].
  destruct (okStatuses_has _); simpl; [| eauto].
  right. apply truthy_text in Ti. rewrite Ti. simpl. eauto.
Qed.

(** Split a goal about [run now (process_install iid uid st) db] along the
    four paths of the function. *)
Ltac install_paths now iid uid st db :=
  let rec' := fresh "rec" in
  let usr := fresh "usr" in
  let r := fresh "r" in
  let Hi := fresh "Hinst" in
  let Hu := fresh "Huser" in
  let Hr := fresh "Href" in
  let Hne := fresh "Hne" in
  destruct (installs db !! iid) as [rec' |] eqn:Hi;
  [ rewrite (process_install_duplicate now iid uid st db rec' Hi)
  | destruct (users db !! uid) as [usr |] eqn:Hu;
    [ destruct (or_null (referrer usr)) as [r |] eqn:Hr;
      [ destruct (String.eqb_spec r uid) as [-> | Hne];
        [ rewrite (process_install_no_referrer now iid uid st db usr Hi Hu (or_intror Hr))
        | rewrite (process_install_credit now iid uid st db usr r Hi Hu Hr Hne) ]
      | rewrite (process_install_no_referrer now iid uid st db usr Hi Hu (or_introl Hr)) ]
    | rewrite (process_install_unknown_user now iid uid st db Hi Hu) ] ].

(** The completed user gets no points from their own install. *)
Lemma process_install_not_self (now : Z) (iid uid st : string) (db : Db) :
  let x := run now (process_install iid uid st) db in
  user_points (final x) uid = user_points db uid
  /\ board_points (final x) uid = board_points db uid
  /\ credits uid (journal x) = [].
Proof.
  cbv zeta. unfold user_points, board_points.
  install_paths now iid uid st db; unfold final, journal; simpl;
    rewrite ?lookup_insert_ne by congruence;
    rewrite ?lookup_insert_eq, ?Huser; simpl; auto.
  destruct (String.eqb_spec r uid); [contradiction |].
  rewrite lookup_insert_ne by congruence. auto.
Qed.

(** [/start] with the user's own id as code never touches the referrer. *)
Lemma start_own_code_referrer (now : Z) (chatId : string) (uname : option string) (db : Db) :
  let db' := final (run now (start chatId (Some chatId) uname) db) in
  is_Some (users db' !! chatId) /\ referrer_of db' chatId = referrer_of db chatId.
Proof.
  cbv zeta. unfold start, referrer_of, final. simpl.
  rewrite String.eqb_refl, andb_false_r. simpl. rewrite lookup_insert_eq.
  split; [eauto |].
  destruct (users db !! chatId) as [u |]; simpl; [| reflexivity].
  rewrite andb_false_r. reflexivity.
Qed.

(** A completion never rewrites a referrer. *)
Lemma process_install_referrers (now : Z) (iid uid st key : string) (db : Db) :
  referrer_of (final (run now (process_install iid uid st) db)) key
  = referrer_of db key.
Proof.
  unfold referrer_of.
  install_paths now iid uid st db; unfold final; simpl; try reflexivity.
  - destruct (decide (uid = key)) as [<- | Hk].
    + rewrite lookup_insert_eq, Huser. reflexivity.
    + rewrite lookup_insert_ne by exact Hk. reflexivity.
  - destruct (decide (r = key)) as [<- | Hk].
    + rewrite lookup_insert_eq. destruct (users db !! r); reflexivity.
    + rewrite lookup_insert_ne by exact Hk.
      destruct (decide (uid = key)) as [<- | Hk'].
      * rewrite lookup_insert_eq, Huser. reflexivity.
      * rewrite lookup_insert_ne by exact Hk'. reflexivity.
  - destruct (decide (uid = key)) as [<- | Hk].
    + rewrite lookup_insert_eq, Huser. reflexivity.
    + rewrite lookup_insert_ne by exact Hk. reflexivity.
Qed.

(** [upsertUser] with a candidate other than the user's own id. *)
Lemma upsertUser_no_self_referrer (now : Z) (userId : string)
    (uname referrerId : option string) (db : Db) :
  referrerId <> Some userId ->
  no_self_referrer db ->
  no_self_referrer (final (run now (upsertUser userId uname referrerId) db)).
Proof.
  intros Hc Hdb key. specialize (Hdb key). unfold referrer_of in *.
  unfold final. simpl.
  destruct (decide (userId = key)) as [<- | Hk].
  - rewrite lookup_insert_eq.
    destruct (users db !! userId) as [u |]; simpl.
    + destruct (negb (truthy (referrer u)) && truthy referrerId); assumption.
    + unfold or_null. destruct (truthy referrerId); [assumption | discriminate].
  - rewrite lookup_insert_ne by exact Hk. exact Hdb.
Qed.

(** [/start] stores a referrer only when the code differs from the
    sender's id. *)
Lemma start_no_self_referrer (now : Z) (chatId : string) (refCode uname : option string)
    (db : Db) :
  no_self_referrer db ->
  no_self_referrer (final (run now (start chatId refCode uname) db)).
Proof.
  intros Hdb. unfold start. apply upsertUser_no_self_referrer; [| exact Hdb].
  destruct refCode as [code |]; [| discriminate].
  destruct (truthy (Some code)); simpl; [| discriminate].
  destruct (String.eqb_spec code chatId); simpl; congruence.
Qed.

Lemma serve_no_self_referrer (now : Z) (ev : Event) (db : Db) :
  is_request ev = true ->
  no_self_referrer db -> no_self_referrer (fst (serve now ev db)).
Proof.
  intros Hreq Hdb. destruct ev as [| chatId refCode uname | req | param];
    [discriminate | | |].
  - apply start_no_self_referrer, Hdb.
  - intros key.
    change (fst (serve now (EvCallback req) db))
      with (final (run now (callback req) db)).
    destruct (callback_cases req) as [[res ->] | (iid & st & _ & ->)].
    + apply Hdb.
    + rewrite process_install_referrers. apply Hdb.
  - unfold serve, leaderboard_top. destruct (effective_n param); exact Hdb.
Qed.

Lemma replay_no_self_referrer (evs : list (Z * Event)) (db : Db) :
  forallb (fun e => is_request (snd e)) evs = true ->
  no_self_referrer db -> no_self_referrer (fst (replay evs db)).
Proof.
  revert db. induction evs as [| [now ev] evs IH]; intros db Hreq Hdb.
  - exact Hdb.
  - simpl in Hreq. apply andb_true_iff in Hreq as [Hev Hevs]. simpl.
    pose proof (serve_no_self_referrer now ev db Hev Hdb) as H1.
    destruct (serve now ev db) as [db' log]. simpl in H1.
    specialize (IH db' Hevs H1). destruct (replay evs db') as [db'' log'].
    exact IH.
Qed.

(** The same with requests in flight. *)
Lemma exec_no_self_referrer (now : Z) (A : Type) (op : Op A) (db : Db) :
  upsert_guarded op ->
  no_self_referrer db -> no_self_referrer (snd (exec now op db)).
Proof.
  intros Hop Hdb. destruct op as [| | | k t | |]; simpl; try exact Hdb.
  intros key. specialize (Hdb key). unfold referrer_of in *. simpl.
  destruct (decide (k = key)) as [<- | Hk].
  - rewrite lookup_insert_eq.
    destruct t as [uname referrerId | | award]; simpl in *.
    + destruct (users db !! k) as [u |]; simpl.
      * destruct (negb (truthy (referrer u)) && truthy referrerId); assumption.
      * unfold or_null. destruct (truthy referrerId); [assumption | discriminate].
    + destruct (users db !! k); [exact Hdb | discriminate].
    + destruct (users db !! k); [exact Hdb | discriminate].
  - rewrite lookup_insert_ne by exact Hk. exact Hdb.
Qed.

Lemma process_install_guarded (iid uid st : string) :
  guarded (process_install iid uid st).
Proof.
  unfold process_install. simpl. split; [exact I |].
  intros [rec |]; simpl; [exact I |]. split; [exact I |].
  intros _. split; [exact I |]. intros [user |]; simpl; [| exact I].
  split; [exact I |]. intros _.
  destruct (or_null (referrer user)) as [r |]; simpl; [| exact I].
  destruct (negb (String.eqb r uid)); simpl; [| exact I].
  repeat (split; [exact I |]; intros ?). exact I.
Qed.

Lemma handler_guarded (ev : Event) :
  is_request ev = true -> guarded_thread (handler ev).
Proof.
  destruct ev as [| chatId refCode uname | req | param]; [discriminate | | |];
    intros _; simpl.
  - split; [| intros _; exact I].
    destruct refCode as [code |]; [| discriminate].
    destruct (truthy (Some code)); simpl; [| discriminate].
    destruct (String.eqb_spec code chatId); simpl; congruence.
  - destruct (callback_cases req) as [[res ->] | (iid & st & _ & ->)];
      [exact I | apply process_install_guarded].
  - unfold leaderboard_top. destruct (effective_n param); simpl; [| exact I].
    split; [exact I |]. intros _. exact I.
Qed.

Lemma act_no_self_referrer (now : Z) (a : Action) (s : Server) :
  from_outside a = true ->
  Forall guarded_thread (threads s) ->
  no_self_referrer (database s) ->
  Forall guarded_thread (threads (act now a s))
  /\ no_self_referrer (database (act now a s)).
Proof.
  intros Ha Hts Hdb. destruct a as [ev | i]; simpl.
  - split; [| exact Hdb]. apply Forall_app. split; [exact Hts |].
    constructor; [apply handler_guarded, Ha | constructor].
  - destruct (threads s !! i) as [[R p] |] eqn:Hi; [| auto]. simpl.
    assert (Hp : guarded p).
    { exact (proj1 (Forall_lookup _ _) Hts i (Running p) Hi). }
    destruct p as [r | A op k]; simpl.
    + split; [| exact Hdb]. apply Forall_insert; assumption.
    + destruct Hp as [Hop Hk].
      pose proof (exec_no_self_referrer now A op (database s) Hop Hdb) as Hdb'.
      destruct (exec now op (database s)) as [x db']. simpl in *.
      split; [| exact Hdb']. apply Forall_insert; [exact Hts | apply Hk].
Qed.

Lemma play_no_self_referrer (acts : list (Z * Action)) (s : Server) :
  forallb (fun a => from_outside (snd a)) acts = true ->
  Forall guarded_thread (threads s) ->
  no_self_referrer (database s) ->
  no_self_referrer (database (play acts s)).
Proof.
  revert s. induction acts as [| [now a] acts IH]; intros s Hacts Hts Hdb.
  - exact Hdb.
  - simpl in Hacts. apply andb_true_iff in Hacts as [Ha Hacts].
    destruct (act_no_self_referrer now a s Ha Hts Hdb) as [Hts' Hdb'].
    simpl. apply IH; assumption.
Qed.

(** ** Invariants of the store *)

(** A property of the store kept by every operation is kept by every
    program, and by every sequence of requests. *)
Lemma run_preserves (I : Db -> Prop) :
  (forall now A (op : Op A) db, I db -> I (snd (exec now op db))) ->
  forall R (p : Async R) now db, I db -> I (final (run now p db)).
Proof.
  intros Hexec R p. induction p as [r | A op k IH]; intros now db HI.
  - exact HI.
  - simpl. specialize (Hexec now A op db HI).
    destruct (exec now op db) as [a db']. simpl in Hexec.
    specialize (IH a now db' Hexec).
    destruct (run now (k a) db') as [[r db''] log]. exact IH.
Qed.



(** The same with requests in flight, interleaved in any order. *)
Lemma act_preserves (I : Db -> Prop) :
  (forall now A (op : Op A) db, I db -> I (snd (exec now op db))) ->
  forall now a s, I (database s) -> I (database (act now a s)).
Proof.
  intros Hexec now a s HI. destruct a as [ev | i]; simpl; [exact HI |].
  destruct (threads s !! i) as [[R p] |]; [| exact HI]. simpl.
  destruct p as [r | A op k]; simpl; [exact HI |].
  specialize (Hexec now A op (database s) HI).
  destruct (exec now op (database s)) as [a db']. exact Hexec.
Qed.

Lemma play_preserves (I : Db -> Prop) :
  (forall now A (op : Op A) db, I db -> I (snd (exec now op db))) ->
  forall acts s, I (database s) -> I (database (play acts s)).
Proof.
  intros Hexec acts. induction acts as [| [now a] acts IH]; intros s HI.
  - exact HI.
  - simpl. apply IH, act_preserves; assumption.
Qed.

Lemma play_app (acts1 acts2 : list (Z * Action)) (s : Server) :
  play (acts1 ++ acts2)%list s = play acts2 (play acts1 s).
Proof.
  revert s. induction acts1 as [| [now a] acts1 IH]; intros s; [reflexivity |].
  simpl. apply IH.
Qed.




(** A referrer that is set survives every transaction on the record. *)
Lemma user_tx_keeps_referrer (now : Z) (key : string) (t : UserTx) (u : User) (r : string) :
  referrer u = Some r -> r <> "" ->
  referrer (user_tx now key t (Some u)) = Some r.
Proof.
  intros Hr Hne. apply truthy_Some in Hne.
  destruct t as [uname referrerId | | award]; simpl; try exact Hr.
  rewrite Hr, Hne. simpl. reflexivity.
Qed.

Lemma exec_keeps_referrer (u r : string) (now : Z) (A : Type) (op : Op A) (db : Db) :
  r <> "" ->
  referrer_of db u = Some r -> referrer_of (snd (exec now op db)) u = Some r.
Proof.
  intros Hne Hdb. destruct op; simpl; try exact Hdb.
  unfold referrer_of in *. simpl. destruct (decide (key = u)) as [-> | Hk].
  - rewrite lookup_insert_eq.
    destruct (users db !! u) as [usr |]; [| discriminate].
    apply user_tx_keeps_referrer; assumption.
  - rewrite lookup_insert_ne by exact Hk. exact Hdb.
Qed.

(** Any program over the database operations, hence any handler, keeps a
    referrer that is set. *)
Lemma run_keeps_referrer (u r : string) (R : Type) (p : Async R) (now : Z) (db : Db) :
  r <> "" ->
  referrer_of db u = Some r -> referrer_of (final (run now p db)) u = Some r.
Proof.
  intros Hne.
  apply (run_preserves (fun db => referrer_of db u = Some r)).
  intros. apply exec_keeps_referrer; assumption.
Qed.




(** ** The leaderboard against the credits *)






(** *** With requests in flight *)

(** One database operation against the journal entry it leaves. *)
Lemma exec_points (now : Z) (A : Type) (op : Op A) (db : Db) (key : string) :
  let a := fst (exec now op db) in
  let db' := snd (exec now op db) in
  board_points db' key
  = board_points db key + sum_list (entry_bump key (Executed op a))
  /\ (leaderboard db' !! key = None
      <-> leaderboard db !! key = None /\ entry_bump key (Executed op a) = [])
  /\ user_points db' key
     = user_points db key + sum_list (entry_credit key (Executed op a)).
Proof.
  cbv zeta. unfold board_points, user_points.
  destruct op as [k | k userRef status | k | k t | k delta uname | n]; simpl;
    rewrite ?Z.add_0_r; try tauto.
  - split; [reflexivity |]. split; [tauto |].
    destruct t as [uname referrerId | | award]; simpl.
    + rewrite Z.add_0_r. destruct (decide (k = key)) as [<- | Hk].
      * rewrite lookup_insert_eq. destruct (users db !! k); reflexivity.
      * rewrite lookup_insert_ne by exact Hk. reflexivity.
    + rewrite Z.add_0_r. destruct (decide (k = key)) as [<- | Hk].
      * rewrite lookup_insert_eq. destruct (users db !! k); reflexivity.
      * rewrite lookup_insert_ne by exact Hk. reflexivity.
    + destruct (String.eqb_spec k key) as [<- | Hk]; simpl.
      * rewrite lookup_insert_eq. destruct (users db !! k); simpl; lia.
      * rewrite lookup_insert_ne by exact Hk. lia.
  - destruct (String.eqb_spec k key) as [<- | Hk]; simpl.
    + rewrite lookup_insert_eq, bumpLeaderboard_update_points.
      split; [lia |]. split; [| reflexivity].
      split; [discriminate | intros [_ [=]]].
    + rewrite lookup_insert_ne by exact Hk. rewrite Z.add_0_r. tauto.
Qed.











Section Measures.
Variable g : list Z -> Z.
Hypothesis g_nil : g [] = 0.
Hypothesis g_app : forall l1 l2, g (l1 ++ l2)%list = g l1 + g l2.






End Measures.







(** Serving a request alone is one of the schedules: it arrives and takes
    all its steps before anything else happens. *)
Lemma play_to_end {R} (p : Async R) (now : Z) (ts : list Thread) (db : Db)
    (h : list Entry) :
  exists n,
    play (replicate n (now, Advance (List.length ts)))
         (mkServer (ts ++ [Running p])%list db h)
    = mkServer (ts ++ [Running (Return (result (run now p db)))])%list
               (final (run now p db)) (h ++ journal (run now p db))%list.
Proof.
  revert db h. induction p as [r | A op k IH]; intros db h.
  - exists 0%nat. simpl. unfold journal. simpl. rewrite app_nil_r. reflexivity.
  - destruct (IH (fst (exec now op db)) (snd (exec now op db))
                (h ++ [Executed op (fst (exec now op db))])%list) as [n Hn].
    exists (S n). cbn [replicate play act threads database history].
    rewrite (list_lookup_middle ts [] _ (List.length ts) eq_refl).
    cbn [advance step]. destruct (exec now op db) as [a db'] eqn:E.
    cbn [fst snd] in Hn.
    replace (<[List.length ts := Running (k a)]> (ts ++ [Running (Await op k)])%list)
      with (ts ++ [Running (k a)])%list.
    2:{ rewrite <- (Nat.add_0_r (List.length ts)) at 1.
        rewrite insert_app_r. reflexivity. }
    rewrite Hn. unfold result, final, journal. cbn [run]. rewrite E.
    destruct (run now (k a) db') as [[r db''] log]. cbn [fst snd].
    rewrite <- app_assoc. reflexivity.
Qed.

Lemma play_serve (now : Z) (ev : Event) (ts : list Thread) (db : Db) (h : list Entry) :
  forallb returned ts = true ->
  exists acts ts',
    play acts (mkServer ts db h)
    = mkServer ts' (fst (serve now ev db)) (h ++ snd (serve now ev db))%list
    /\ forallb returned ts' = true.
Proof.
  intros Hts.
  assert (H : forall R (p : Async R),
    exists acts ts',
      play acts (mkServer (ts ++ [Running p])%list db h)
      = mkServer ts' (final (run now p db)) (h ++ journal (run now p db))%list
      /\ forallb returned ts' = true).
  { intros R p. destruct (play_to_end p now ts db h) as [n Hn].
    eexists _, _. split; [exact Hn |].
    rewrite forallb_app, Hts. reflexivity. }
  destruct ev as [userId uname referrerId | chatId refCode uname | req | param].
  - destruct (H _ (upsertUser userId uname referrerId)) as (acts & ts' & Hp & Hq).
    exists ((now, Arrive (EvUpsert userId uname referrerId)) :: acts), ts'. auto.
  - destruct (H _ (start chatId refCode uname)) as (acts & ts' & Hp & Hq).
    exists ((now, Arrive (EvStart chatId refCode uname)) :: acts), ts'. auto.
  - destruct (H _ (callback req)) as (acts & ts' & Hp & Hq).
    exists ((now, Arrive (EvCallback req)) :: acts), ts'. auto.
  - destruct (H _ (leaderboard_top param)) as (acts & ts' & Hp & Hq).
    exists ((now, Arrive (EvTop param)) :: acts), ts'. auto.
Qed.

Lemma play_replay (evs : list (Z * Event)) (ts : list Thread) (db : Db) (h : list Entry) :
  forallb returned ts = true ->
  exists acts ts',
    play acts (mkServer ts db h)
    = mkServer ts' (fst (replay evs db)) (h ++ snd (replay evs db))%list
    /\ forallb returned ts' = true.
Proof.
  revert ts db h. induction evs as [| [now ev] evs IH]; intros ts db h Hts.
  - exists [], ts. simpl. rewrite app_nil_r. auto.
  - destruct (play_serve now ev ts db h Hts) as (acts & ts' & Hp & Hq).
    destruct (IH ts' (fst (serve now ev db)) (h ++ snd (serve now ev db))%list Hq)
      as (acts' & ts'' & Hp' & Hq').
    exists (acts ++ acts')%list, ts''. rewrite play_app, Hp, Hp'.
    split; [| exact Hq']. cbn [replay].
    destruct (serve now ev db) as [db' log]. cbn [fst snd].
    destruct (replay evs db') as [db'' log']. cbn [fst snd].
    rewrite <- app_assoc. reflexivity.
Qed.


(** ** Two callbacks for the same install, interleaved *)

Lemma play_advance_0 {R A} (now : Z) (acts : list (Z * Action))
    (ts : list Thread) (db : Db) (h : list Entry) (op : Op A) (k : A -> Async R) :
  play ((now, Advance 0%nat) :: acts) (mkServer (Running (Await op k) :: ts) db h)
  = play acts
      (mkServer (Running (k (fst (exec now op db))) :: ts)
                (snd (exec now op db))
                (h ++ [Executed op (fst (exec now op db))])%list).
Proof.
  cbn [play act threads database history]. simpl lookup.
  cbn [advance step]. destruct (exec now op db) as [a db']. reflexivity.
Qed.

Lemma play_advance_1 {R A} (now : Z) (acts : list (Z * Action)) (t : Thread)
    (ts : list Thread) (db : Db) (h : list Entry) (op : Op A) (k : A -> Async R) :
  play ((now, Advance 1%nat) :: acts)
       (mkServer (t :: Running (Await op k) :: ts) db h)
  = play acts
      (mkServer (t :: Running (k (fst (exec now op db))) :: ts)
                (snd (exec now op db))
                (h ++ [Executed op (fst (exec now op db))])%list).
Proof.
  cbn [play act threads database history]. simpl lookup.
  cbn [advance step]. destruct (exec now op db) as [a db']. reflexivity.
Qed.

Lemma play_arrive (now : Z) (ev : Event) (acts : list (Z * Action))
    (ts : list Thread) (db : Db) (h : list Entry) :
  play ((now, Arrive ev) :: acts) (mkServer ts db h)
  = play acts (mkServer (ts ++ [handler ev])%list db h).
Proof. reflexivity. Qed.

Ltac pool_step :=
  first [rewrite play_advance_0 | rewrite play_advance_1];
  cbn [exec fst snd set_installs set_users set_leaderboard users installs
       leaderboard user_tx completed_update referrer app].

(** C2. The ledger check is a read ([once]) followed by a separate write
    ([set]). With two callbacks for the same install in flight, the
    schedule [racing_schedule] lets both read the ledger before either
    writes: both see no record, both write one, both answer [{ok: true}] and
    both credit the referrer, who ends with twice the award. *)
Theorem concurrent_callbacks_both_credit
    (now : Z) (req : Request) (db : Db) (iid uid : string) (usr : User) (r : string) :
  PROVIDER_CALLBACK_SECRET <> "" ->
  signature req = Some (expected_signature req) ->
  expected_signature req <> "" ->
  body_installId (body req) = Some iid -> iid <> "" ->
  body_userRefId (body req) = Some uid -> uid <> "" ->
  okStatuses_has (normalize_status (body_providerStatus (body req))) = true ->
  installs db !! iid = None ->
  users db !! uid = Some usr ->
  referrer usr = Some r -> r <> "" -> r <> uid ->
  let st := normalize_status (body_providerStatus (body req)) in
  let s := play (racing_schedule now req) (mkServer [] db []) in
  threads s = [Running (Return res_ok); Running (Return res_ok)]
  /\ take 3 (history s)
     = [Executed (InstallOnce iid) None;
        Executed (InstallOnce iid) None;
        Executed (InstallSet iid uid st) tt]
  /\ history s !! 8%nat = Some (Executed (InstallSet iid uid st) tt)
  /\ credits r (history s) = [POINTS_FOR_COMPLETION; POINTS_FOR_COMPLETION]
  /\ user_points (database s) r = user_points db r + 2 * POINTS_FOR_COMPLETION
  /\ board_points (database s) r = board_points db r + 2 * POINTS_FOR_COMPLETION.
Proof.
  intros Hsec Hsig Hexp Hi Hine Hu Hune Hst Hnone Husr Href Hr Hne. cbv zeta.
  set (st := normalize_status (body_providerStatus (body req))).
  assert (Hor : or_null (referrer usr) = Some r).
  { rewrite Href. apply or_null_truthy, truthy_Some, Hr. }
  assert (Hneq : String.eqb r uid = false).
  { destruct (String.eqb_spec r uid); [contradiction | reflexivity]. }
  assert (Hplay : exists h db',
    play (racing_schedule now req) (mkServer [] db [])
    = mkServer [Running (Return res_ok); Running (Return res_ok)] db' h
    /\ take 3 h
       = [Executed (InstallOnce iid) None;
          Executed (InstallOnce iid) None;
          Executed (InstallSet iid uid st) tt]
    /\ h !! 8%nat = Some (Executed (InstallSet iid uid st) tt)
    /\ credits r h = [POINTS_FOR_COMPLETION; POINTS_FOR_COMPLETION]
    /\ user_points db' r = user_points db r + 2 * POINTS_FOR_COMPLETION
    /\ board_points db' r = board_points db r + 2 * POINTS_FOR_COMPLETION).
  { eexists _, _. split.
    - unfold racing_schedule. rewrite !play_arrive. cbn [handler app].
      rewrite (callback_accepted req iid uid) by assumption. fold st.
      unfold process_install. cbn [bind call bumpLeaderboard].
      pool_step. rewrite Hnone. pool_step. rewrite Hnone.
      pool_step. pool_step. rewrite Husr.
      pool_step. rewrite Hor, Hneq. cbn [negb].
      pool_step. pool_step. pool_step.
      pool_step. pool_step.
      repeat (rewrite lookup_insert_ne by congruence).
      rewrite lookup_insert_eq, ?Husr.
      pool_step. rewrite Hor, Hneq. cbn [negb].
      pool_step. pool_step. pool_step.
      reflexivity.
    - cbn [take lookup list_lookup credits flat_map entry_credit app].
      rewrite String.eqb_refl. cbn [app].
      unfold user_points, board_points.
      cbn [users leaderboard set_installs set_users set_leaderboard].
      rewrite !lookup_insert_eq, credit_update_points, bumpLeaderboard_update_points.
      rewrite lookup_insert_ne by congruence.
      rewrite !lookup_insert_eq, credit_update_points, bumpLeaderboard_update_points.
      rewrite lookup_insert_ne by congruence.
      repeat split; auto; lia. }
  destruct Hplay as (h & db' & -> & H). cbn [threads history database].
  split; [reflexivity |]. exact H.
Qed.

(** ** The leaderboard endpoint *)

Section SortingFacts.
Context {A : Type} (leb : A -> A -> bool).
Hypothesis leb_total : forall a b, leb a b = true \/ leb b a = true.

Lemma insert_sorted_perm (x : A) (l : list A) : insert_sorted leb x l ≡ₚ x :: l.
Proof.
  induction l as [| y l IH]; simpl; [reflexivity |].
  destruct (leb x y); [reflexivity |].
  rewrite IH. apply Permutation_swap.
Qed.

Lemma stable_sort_perm (l : list A) : stable_sort leb l ≡ₚ l.
Proof.
  induction l as [| x l IH]; simpl; [reflexivity |].
  rewrite insert_sorted_perm, IH. reflexivity.
Qed.

Lemma stable_sort_length (l : list A) :
  List.length (stable_sort leb l) = List.length l.
Proof. apply Permutation_length, stable_sort_perm. Qed.

Lemma insert_sorted_Sorted (x : A) (l : list A) :
  Sorted (fun a b => leb a b = true) l ->
  Sorted (fun a b => leb a b = true) (insert_sorted leb x l).
Proof.
  induction 1 as [| y l Hl IH Hhd]; simpl.
  - repeat constructor.
  - destruct (leb x y) eqn:E.
    + constructor; [constructor; assumption | constructor; exact E].
    + constructor; [exact IH |].
      destruct (leb_total x y) as [Hxy | Hyx]; [congruence |].
      destruct Hhd as [| z l' Hyz]; simpl.
      * constructor. exact Hyx.
      * destruct (leb x z); constructor; assumption.
Qed.

Lemma stable_sort_Sorted (l : list A) :
  Sorted (fun a b => leb a b = true) (stable_sort leb l).
Proof.
  induction l as [| x l IH]; simpl; [constructor |].
  apply insert_sorted_Sorted, IH.
Qed.

(** Stability: elements that compare equal keep the order [R2] they had. *)
Lemma insert_sorted_stable (R2 : A -> A -> Prop) (x : A) (l : list A) :
  Forall (R2 x) l ->
  Sorted (fun a b => leb a b = true /\ (leb b a = true -> R2 a b)) l ->
  Sorted (fun a b => leb a b = true /\ (leb b a = true -> R2 a b))
         (insert_sorted leb x l).
Proof.
  intros Hall Hl. induction Hl as [| y l Hl IH Hhd]; simpl.
  - repeat constructor.
  - apply Forall_cons in Hall as [Hxy Hall]. destruct (leb x y) eqn:E.
    + constructor; [constructor; assumption |]. constructor. auto.
    + constructor; [apply IH, Hall |].
      assert (Hyx : leb y x = true).
      { destruct (leb_total x y); congruence. }
      destruct Hhd as [| z l' Hyz]; simpl.
      * constructor. split; [exact Hyx | congruence].
      * destruct (leb x z); constructor; [| exact Hyz].
        split; [exact Hyx | congruence].
Qed.

Lemma stable_sort_stable (R2 : A -> A -> Prop) (l : list A) :
  StronglySorted R2 l ->
  Sorted (fun a b => leb a b = true /\ (leb b a = true -> R2 a b))
         (stable_sort leb l).
Proof.
  induction 1 as [| x l Hl IH Hall]; simpl; [constructor |].
  apply insert_sorted_stable; [| exact IH].
  rewrite stable_sort_perm. exact Hall.
Qed.

End SortingFacts.

Lemma key_leb_spec (a b : string) :
  key_leb a b = true <-> String_as_OT.lt a b \/ a = b.
Proof.
  unfold key_leb, String.leb.
  rewrite <- String_as_OT.cmp_lt, <- String_as_OT.cmp_eq.
  unfold String_as_OT.cmp. destruct (String.compare a b); split; intros H;
    try discriminate; auto; destruct H; discriminate.
Qed.

Lemma key_leb_trans (a b c : string) :
  key_leb a b = true -> key_leb b c = true -> key_leb a c = true.
Proof.
  rewrite !key_leb_spec. intros [Hab | ->] [Hbc | ->]; auto.
  left. exact (String_as_OT.lt_trans _ _ _ Hab Hbc).
Qed.

Lemma Sorted_weaken {A} (R R' : A -> A -> Prop) (l : list A) :
  (forall a b, R a b -> R' a b) -> Sorted R l -> Sorted R' l.
Proof.
  intros HR. induction 1 as [| x l Hl IH Hhd]; constructor; [exact IH |].
  destruct Hhd; constructor. apply HR. assumption.
Qed.

Lemma by_points_desc_spec (a b : string * LeaderboardEntry) :
  by_points_desc a b = true
  <-> or_zero (lb_points (snd b)) <= or_zero (lb_points (snd a)).
Proof. unfold by_points_desc. rewrite Z.leb_le. lia. Qed.

Lemma by_points_desc_total (a b : string * LeaderboardEntry) :
  by_points_desc a b = true \/ by_points_desc b a = true.
Proof. rewrite !by_points_desc_spec. lia. Qed.

Lemma take_last_length {A} (n : nat) (l : list A) :
  (List.length (take_last n l) <= n)%nat.
Proof. unfold take_last. rewrite length_drop. lia. Qed.

Lemma limitToLast_length (n : Z) (board : gmap string LeaderboardEntry) :
  (List.length (limitToLast n board) <= Z.to_nat n)%nat.
Proof.
  unfold limitToLast. rewrite stable_sort_length. apply take_last_length.
Qed.

(** The query returns children of the leaderboard, each with its entry. *)
Lemma limitToLast_elem_of (n : Z) (board : gmap string LeaderboardEntry)
    (k : string) (e : LeaderboardEntry) :
  (k, e) ∈ limitToLast n board -> board !! k = Some e.
Proof.
  unfold limitToLast, take_last. rewrite stable_sort_perm. intros Hin.
  apply elem_of_map_to_list.
  rewrite <- (stable_sort_perm child_leb).
  eapply elem_of_sublist; [exact Hin | apply sublist_drop].
Qed.

Lemma effective_n_range (param : string) (n : Z) :
  effective_n param = Some n -> 1 <= n <= 100.
Proof.
  unfold effective_n. destruct (parseInt _); intros [= <-]. lia.
Qed.

(** When [:n] starts with a number, the endpoint answers with at most [n]
    entries of the leaderboard, the number clamped to 1..100, in
    descending order of points, and writes nothing (so that the same
    request, repeated with no write in between, gets the same answer). *)
Lemma leaderboard_top_numeric (now : Z) (param : string) (n : Z) (db : Db) :
  effective_n param = Some n ->
  1 <= n <= 100
  /\ exists top,
       run now (leaderboard_top param) db
       = (Some top, db, [Executed (BoardLimitToLast n) (limitToLast n (leaderboard db))])
       /\ Z.of_nat (List.length top) <= n
       /\ Sorted (fun a b => or_zero (lb_points (snd b)) <= or_zero (lb_points (snd a))) top
       /\ forall k e, (k, e) ∈ top -> leaderboard db !! k = Some e.
Proof.
  intros Hn. pose proof (effective_n_range _ _ Hn) as Hrange.
  split; [exact Hrange |].
  unfold leaderboard_top. rewrite Hn.
  exists (stable_sort by_points_desc (limitToLast n (leaderboard db))).
  split; [reflexivity |]. split; [| split].
  - rewrite stable_sort_length.
    pose proof (limitToLast_length n (leaderboard db)). lia.
  - eapply Sorted_weaken; [| apply stable_sort_Sorted, by_points_desc_total].
    intros a b. apply by_points_desc_spec.
  - intros k e. rewrite stable_sort_perm. apply limitToLast_elem_of.
Qed.

(** C8. The clamp misses the case where [:n] does not start with a number:
    for [GET /leaderboard/top/abc], [parseInt] gives NaN, [Math.max] and
    [Math.min] pass it on, so the effective [n] is not in 1..100; the query
    is never issued and the handler sends no ranked array. *)
Theorem leaderboard_top_not_a_number (now : Z) (db : Db) :
  parseInt "abc" = None
  /\ effective_n "abc" = None
  /\ run now (leaderboard_top "abc") db = (None, db, []).
Proof. repeat split. Qed.

(** * Further properties of the handlers *)

(** ** The callback: rejections, and who is credited *)

(** X1. A callback that is answered 400 or 403, or 500 for the missing
    secret, or as ignored, or as already processed, leaves the store exactly
    as it was; unless it is the duplicate answer (which reads the ledger
    once), not a single database operation is issued. (The 500 of the
    [catch] branch is another answer: it can follow writes.) *)
Theorem callback_rejection_leaves_store (now : Z) (req : Request) (db : Db) :
  let x := run now (callback req) db in
  status (result x) = 400 \/ status (result x) = 403
    \/ result x = res_secret_not_set
    \/ ignored (result x) = true \/ alreadyProcessed (result x) = true ->
  final x = db
  /\ (forall key, credits key (journal x) = [])
  /\ (alreadyProcessed (result x) = false -> journal x = []).
Proof.
  cbv zeta. destruct (callback_cases req) as [[res ->] | (iid & st & _ & ->)].
  - intros _. repeat split.
  - set (uid := text (body_userRefId (body req))).
    install_paths now iid uid st db; unfold result, final, journal; cbn [fst snd].
    + intros _. split; [reflexivity |]. split; [reflexivity | discriminate].
    + intros [H | [H | [H | [H | H]]]]; discriminate H.
    + intros [H | [H | [H | [H | H]]]]; discriminate H.
    + intros [H | [H | [H | [H | H]]]]; discriminate H.
    + intros [H | [H | [H | [H | H]]]]; discriminate H.
Qed.

(** X2. A callback with a good signature but without [installId] or
    without [userRefId] (absent, [null] or empty) is answered 400
    "missing fields", whatever its status field; nothing is read or
    written. *)
Theorem missing_fields_rejected (now : Z) (req : Request) (db : Db) :
  PROVIDER_CALLBACK_SECRET <> "" ->
  signature req = Some (expected_signature req) ->
  expected_signature req <> "" ->
  truthy (body_installId (body req)) = false
    \/ truthy (body_userRefId (body req)) = false ->
  run now (callback req) db = (res_missing_fields, db, []).
Proof.
  intros Hsec Hsig Hexp Hmiss. unfold callback.
  apply truthy_Some in Hsec. rewrite Hsec. cbn [negb].
  assert (Hok : signature_rejected (text (signature req)) (expected_signature req)
                = Some false).
  { apply signature_rejected_false. rewrite Hsig. cbn [text]. auto. }
  rewrite Hok. cbv zeta.
  destruct Hmiss as [-> | ->]; cbn [negb orb]; [reflexivity |].
  rewrite orb_true_r. reflexivity.
Qed.

(** What [/start] stores for a new user who came through somebody else's
    link. *)
Lemma start_new_user_referred (now : Z) (chatId code : string) (uname : option string)
    (db : Db) :
  users db !! chatId = None ->
  code <> "" -> code <> chatId ->
  final (run now (start chatId (Some code) uname) db)
  = set_users
      (insert chatId
         (mkUser (Some chatId) (or_null uname) (Some now) (Some code)
                 (Some 0) (Some 0) (Some false))) db.
Proof.
  intros Hnone Hcode Hne. unfold start.
  apply truthy_Some in Hcode. rewrite Hcode.
  destruct (String.eqb_spec code chatId) as [| _]; [contradiction |].
  cbn [andb negb]. unfold upsertUser, call, final. cbn [run exec fst snd user_tx].
  rewrite Hnone. cbn [upsertUser_update]. unfold or_null at 2. rewrite Hcode.
  reflexivity.
Qed.

(** X3. An install reported before its user has registered is ledgered
    and answered "user-not-found". When the user then registers through a
    referral link and the provider repeats the same callback, it is a
    duplicate: the referrer gets no points, on the user record or on the
    leaderboard, and the user's completion count stays 0. The install id,
    the user id and the referral code are keys. *)
Theorem install_before_registration_is_lost
    (now1 now2 now3 : Z) (req : Request) (db : Db) (iid uid r : string)
    (uname : option string) :
  valid_key iid = true -> valid_key uid = true -> valid_key r = true ->
  PROVIDER_CALLBACK_SECRET <> "" ->
  signature req = Some (expected_signature req) ->
  expected_signature req <> "" ->
  body_installId (body req) = Some iid -> iid <> "" ->
  body_userRefId (body req) = Some uid -> uid <> "" ->
  okStatuses_has (normalize_status (body_providerStatus (body req))) = true ->
  installs db !! iid = None ->
  users db !! uid = None ->
  r <> "" -> r <> uid ->
  let x1 := run now1 (callback req) db in
  let db2 := final (run now2 (start uid (Some r) uname) (final x1)) in
  let x3 := run now3 (callback req) db2 in
  result x1 = res_user_not_found
  /\ referrer_of db2 uid = Some r
  /\ result x3 = res_alreadyProcessed
  /\ final x3 = db2
  /\ user_points (final x3) r = user_points db r
  /\ board_points (final x3) r = board_points db r
  /\ completed_of (final x3) uid = 0.
Proof.
  intros _ _ _ Hsec Hsig Hexp Hi Hine Hu Hune Hst Hnone Hnouser Hr Hne. cbv zeta.
  rewrite (callback_accepted req iid uid) by assumption.
  set (st := normalize_status (body_providerStatus (body req))).
  rewrite (process_install_unknown_user now1 iid uid st db Hnone Hnouser).
  change (final (res_user_not_found,
                 set_installs (insert iid (mkInstall iid uid st now1)) db,
                 [Executed (InstallOnce iid) None;
                  Executed (InstallSet iid uid st) tt;
                  Executed (UserOnce uid) None]))
    with (set_installs (insert iid (mkInstall iid uid st now1)) db).
  set (db1 := set_installs (insert iid (mkInstall iid uid st now1)) db).
  rewrite (start_new_user_referred now2 uid r uname db1 Hnouser Hr Hne).
  subst db1. set (db2 := set_users _ _).
  assert (Hrec : installs db2 !! iid = Some (mkInstall iid uid st now1)).
  { subst db2. cbn [installs set_users set_installs]. apply lookup_insert_eq. }
  rewrite (process_install_duplicate now3 iid uid st db2 _ Hrec).
  unfold result, final. cbn [fst snd].
  unfold referrer_of, user_points, board_points, completed_of, field_of.
  subst db2. cbn [users leaderboard set_users set_installs].
  rewrite lookup_insert_eq. rewrite lookup_insert_ne by congruence.
  repeat split; reflexivity.
Qed.

(** X4. A completion touches the points of nobody but the direct referrer
    of the completed user: for every other id (the referrer's own referrer
    included) the points of the user record and of the leaderboard entry are
    unchanged and nothing is credited. The ids of the callback and the
    stored referrer of its user are keys. *)
Theorem callback_credits_direct_referrer_only
    (now : Z) (req : Request) (db : Db) (key : string) :
  valid_code (body_installId (body req)) = true ->
  valid_code (body_userRefId (body req)) = true ->
  valid_code (referrer_of db (text (body_userRefId (body req)))) = true ->
  let uid := text (body_userRefId (body req)) in
  let x := run now (callback req) db in
  or_null (referrer_of db uid) <> Some key ->
  user_points (final x) key = user_points db key
  /\ board_points (final x) key = board_points db key
  /\ credits key (journal x) = [].
Proof.
  intros _ _ _. cbv zeta. intros Hkey.
  destruct (callback_cases req) as [[res ->] | (iid & st & _ & ->)]; [auto |].
  set (uid := text (body_userRefId (body req))) in *.
  unfold referrer_of in Hkey. unfold user_points, board_points.
  install_paths now iid uid st db; unfold final, journal; cbn [fst snd];
    cbn [users leaderboard set_users set_installs credits flat_map entry_credit app].
  - auto.
  - split; [| auto]. destruct (decide (uid = key)) as [<- | Hk].
    + rewrite lookup_insert_eq, Huser. reflexivity.
    + rewrite lookup_insert_ne by exact Hk. reflexivity.
  - assert (Hrk : r <> key) by congruence.
    destruct (String.eqb_spec r key) as [| _]; [contradiction |].
    rewrite !(lookup_insert_ne _ r key) by exact Hrk.
    split; [| auto]. destruct (decide (uid = key)) as [<- | Hk].
    + rewrite lookup_insert_eq, Huser. reflexivity.
    + rewrite lookup_insert_ne by exact Hk. reflexivity.
  - split; [| auto]. destruct (decide (uid = key)) as [<- | Hk].
    + rewrite lookup_insert_eq, Huser. reflexivity.
    + rewrite lookup_insert_ne by exact Hk. reflexivity.
  - auto.
Qed.

(** X5. A callback never alters who a user is: for every id, the [id],
    [username], [joinedAt] and [referrer] fields of the user record are
    after the callback what they were before it, and no user record
    disappears. The ids of the callback and the stored referrer of its
    user are keys. *)
Theorem callback_keeps_identity (now : Z) (req : Request) (db : Db) (key : string) :
  valid_code (body_installId (body req)) = true ->
  valid_code (body_userRefId (body req)) = true ->
  valid_code (referrer_of db (text (body_userRefId (body req)))) = true ->
  let x := run now (callback req) db in
  field_of id (final x) key = field_of id db key
  /\ field_of username (final x) key = field_of username db key
  /\ field_of joinedAt (final x) key = field_of joinedAt db key
  /\ field_of referrer (final x) key = field_of referrer db key
  /\ (users (final x) !! key = None -> users db !! key = None).
Proof.
  intros _ _ _. cbv zeta.
  destruct (callback_cases req) as [[res ->] | (iid & st & _ & ->)]; [auto |].
  set (uid := text (body_userRefId (body req))).
  unfold field_of.
  install_paths now iid uid st db; unfold final; cbn [fst snd];
    cbn [users set_users set_installs]; auto.
  - destruct (decide (uid = key)) as [<- | Hk].
    + rewrite lookup_insert_eq, Huser. repeat split; discriminate.
    + rewrite lookup_insert_ne by exact Hk. auto.
  - destruct (decide (r = key)) as [<- | Hk].
    + rewrite lookup_insert_eq.
      destruct (users db !! r); repeat split; discriminate.
    + rewrite lookup_insert_ne by exact Hk.
      destruct (decide (uid = key)) as [<- | Hk'].
      * rewrite lookup_insert_eq, Huser. repeat split; discriminate.
      * rewrite lookup_insert_ne by exact Hk'. auto.
  - destruct (decide (uid = key)) as [<- | Hk].
    + rewrite lookup_insert_eq, Huser. repeat split; discriminate.
    + rewrite lookup_insert_ne by exact Hk. auto.
Qed.

(** ** Invariants of the records, with requests in flight *)

(** A callback that reaches the ledger carries an accepted status. *)
Lemma callback_cases_accepted (req : Request) :
  (exists res, callback req = Return res)
  \/ (exists iid st,
        okStatuses_has st = true
        /\ callback req = process_install iid (text (body_userRefId (body req))) st).
Proof.
  unfold callback.
  destruct (truthy (Some PROVIDER_CALLBACK_SECRET)); cbn [negb]; [| eauto].
  destruct (signature_rejected _ _) as [[|] |]; [eauto | | eauto].
  cbv zeta.
  destruct (truthy (body_installId (body req))) eqn:Ti; cbn [negb orb]; [| eauto].
  destruct (truthy (body_userRefId (body req))) eqn:Tu; cbn [negb orb]; [| eauto].
  destruct (okStatuses_has _) eqn:Hst; cbn [negb]; [| eauto].
  right. eauto.
Qed.

Lemma process_install_ops (iid uid st : string) :
  okStatuses_has st = true -> every_op handler_op (process_install iid uid st).
Proof.
  intros Hst. unfold process_install. cbn [bind call every_op handler_op].
  split; [exact I |]. intros [rec |]; cbn [every_op]; [exact I |].
  split; [exact Hst |]. intros _. split; [exact I |].
  intros [user |]; cbn [every_op]; [| exact I].
  split; [exact I |]. intros _.
  destruct (or_null (referrer user)) as [r |]; cbn [every_op]; [| exact I].
  destruct (negb (String.eqb r uid)); cbn [every_op bind call bumpLeaderboard handler_op];
    [| exact I].
  split; [exact I |]. intros _. split; [reflexivity |]. intros _.
  split; [reflexivity |]. intros _. exact I.
Qed.

Lemma handler_ops (ev : Event) : every_op_thread handler_op (handler ev).
Proof.
  destruct ev as [userId uname referrerId | chatId refCode uname | req | param];
    cbn [handler every_op_thread].
  - cbn. split; [exact I | intros _; exact I].
  - cbn. split; [exact I | intros _; exact I].
  - destruct (callback_cases_accepted req) as [[res ->] | (iid & st & Hst & ->)];
      [exact I | apply process_install_ops, Hst].
  - unfold leaderboard_top. destruct (effective_n param); cbn; [| exact I].
    split; [exact I | intros _; exact I].
Qed.

(** A property of the store kept by every operation the handlers issue is
    kept while requests arrive and are interleaved in any order. *)
Lemma act_preserves_ops (P : forall A, Op A -> Prop) (I : Db -> Prop) :
  (forall now A (op : Op A) db, P A op -> I db -> I (snd (exec now op db))) ->
  (forall ev, every_op_thread P (handler ev)) ->
  forall now a s,
    Forall (every_op_thread P) (threads s) -> I (database s) ->
    Forall (every_op_thread P) (threads (act now a s)) /\ I (database (act now a s)).
Proof.
  intros Hexec Hhandler now a s Hts HI. destruct a as [ev | i]; cbn [act].
  - cbn [threads database]. split; [| exact HI].
    apply Forall_app. split; [exact Hts |].
    constructor; [apply Hhandler | constructor].
  - destruct (threads s !! i) as [[R p] |] eqn:Hi; [| auto]. cbn [advance].
    assert (Hp : every_op P p).
    { exact (proj1 (Forall_lookup _ _) Hts i (Running p) Hi). }
    destruct p as [r | A op k]; cbn [step].
    + cbn [threads database]. split; [| exact HI]. apply Forall_insert; assumption.
    + destruct Hp as [Hop Hk].
      specialize (Hexec now A op (database s) Hop HI).
      destruct (exec now op (database s)) as [x db']. cbn [snd] in Hexec.
      cbn [threads database]. split; [| exact Hexec].
      apply Forall_insert; [exact Hts | apply Hk].
Qed.

Lemma play_preserves_ops (P : forall A, Op A -> Prop) (I : Db -> Prop) :
  (forall now A (op : Op A) db, P A op -> I db -> I (snd (exec now op db))) ->
  (forall ev, every_op_thread P (handler ev)) ->
  forall acts s,
    Forall (every_op_thread P) (threads s) -> I (database s) ->
    Forall (every_op_thread P) (threads (play acts s)) /\ I (database (play acts s)).
Proof.
  intros Hexec Hhandler acts. induction acts as [| [now a] acts IH]; intros s Hts HI.
  - auto.
  - cbn [play].
    destruct (act_preserves_ops P I Hexec Hhandler now a s Hts HI) as [Hts' HI'].
    apply IH; assumption.
Qed.

(** Points under one operation of a handler, when the award is not
    negative. *)
Lemma exec_points_grow (now : Z) (A : Type) (op : Op A) (db : Db) (key : string) :
  0 <= POINTS_FOR_COMPLETION ->
  handler_op A op ->
  user_points db key <= user_points (snd (exec now op db)) key
  /\ board_points db key <= board_points (snd (exec now op db)) key.
Proof.
  intros HP Hop. pose proof (exec_points now A op db key) as H. cbv zeta in H.
  destruct H as (Hb & _ & Hu). rewrite Hb, Hu.
  destruct op as [k | k userRef status | k | k t | k delta uname | n];
    cbn [entry_bump entry_credit sum_list foldr]; try lia.
  - destruct t as [uname referrerId | | award]; cbn [sum_list foldr]; try lia.
    cbn [handler_op] in Hop. subst award.
    destruct (String.eqb k key); cbn [sum_list foldr]; lia.
  - cbn [handler_op] in Hop. subst delta.
    destruct (String.eqb k key); cbn [sum_list foldr]; lia.
Qed.

(** X6. Points never go down and are never negative when the configured
    award is not negative: in every store the server can reach from the
    empty one, the points of every user record and of every leaderboard
    entry are at least 0, and whatever happens next (requests arriving and
    interleaved in any order) they do not decrease. The ids of the
    requests are keys. *)
Theorem points_never_decrease
    (acts1 acts2 : list (Z * Action)) (key : string) :
  forallb (fun a => valid_action (snd a)) (acts1 ++ acts2)%list = true ->
  0 <= POINTS_FOR_COMPLETION ->
  let s1 := play acts1 boot in
  let s2 := play (acts1 ++ acts2)%list boot in
  0 <= user_points (database s1) key
  /\ 0 <= board_points (database s1) key
  /\ user_points (database s1) key <= user_points (database s2) key
  /\ board_points (database s1) key <= board_points (database s2) key.
Proof.
  intros _ HP. cbv zeta.
  assert (Hgrow : forall c1 c2 acts s,
    Forall (every_op_thread handler_op) (threads s) ->
    c1 <= user_points (database s) key /\ c2 <= board_points (database s) key ->
    Forall (every_op_thread handler_op) (threads (play acts s))
    /\ (c1 <= user_points (database (play acts s)) key
        /\ c2 <= board_points (database (play acts s)) key)).
  { intros c1 c2. apply (play_preserves_ops handler_op
      (fun db => c1 <= user_points db key /\ c2 <= board_points db key)).
    - intros now A op db Hop [H1 H2].
      destruct (exec_points_grow now A op db key HP Hop). lia.
    - apply handler_ops. }
  destruct (Hgrow 0 0 acts1 boot (Forall_nil_2 _)) as [Hts [H1 H2]].
  { split; reflexivity. }
  rewrite play_app.
  destruct (Hgrow (user_points (database (play acts1 boot)) key)
                  (board_points (database (play acts1 boot)) key)
                  acts2 (play acts1 boot) Hts) as [_ [H3 H4]].
  { split; lia. }
  auto.
Qed.

(** Completion fields under one operation. *)
Lemma exec_completion_fields (now : Z) (A : Type) (op : Op A) (db : Db) (key : string) :
  (field_of taskCompleted db key = Some true <-> 0 < completed_of db key) ->
  0 <= completed_of db key ->
  let db' := snd (exec now op db) in
  (field_of taskCompleted db' key = Some true <-> 0 < completed_of db' key)
  /\ completed_of db key <= completed_of db' key.
Proof.
  cbv zeta. unfold completed_of, field_of. intros Hiff Hpos.
  destruct op as [k | k userRef status | k | k t | k delta uname | n];
    cbn [exec snd users set_installs set_users set_leaderboard];
    try (split; [exact Hiff | lia]).
  destruct (decide (k = key)) as [<- | Hk];
    [| rewrite lookup_insert_ne by exact Hk; split; [exact Hiff | lia]].
  rewrite lookup_insert_eq.
  destruct t as [uname referrerId | | award]; cbn [user_tx].
  - destruct (users db !! k) as [u |]; cbn in *; [split; [exact Hiff | lia] |].
    split; [| lia]. split; [discriminate | lia].
  - destruct (users db !! k) as [u |]; cbn in *.
    + split; [| lia]. split; [lia | reflexivity].
    + split; [| lia]. split; [lia | reflexivity].
  - destruct (users db !! k) as [u |]; cbn in *; [split; [exact Hiff | lia] |].
    split; [| lia]. split; [discriminate | lia].
Qed.

(** X7. The completion count of a user never goes down, and
    [taskCompleted] mirrors it: in every store the server can reach from
    the empty one, [taskCompleted] is true exactly for the users whose
    [completedInstalls] is at least 1, the count is never negative, and
    whatever happens next it does not decrease. The ids of the requests
    are keys. *)
Theorem completion_count_never_decreases
    (acts1 acts2 : list (Z * Action)) (key : string) :
  forallb (fun a => valid_action (snd a)) (acts1 ++ acts2)%list = true ->
  let s1 := play acts1 boot in
  let s2 := play (acts1 ++ acts2)%list boot in
  (field_of taskCompleted (database s1) key = Some true
   <-> 0 < completed_of (database s1) key)
  /\ 0 <= completed_of (database s1) key
  /\ completed_of (database s1) key <= completed_of (database s2) key.
Proof.
  intros _. cbv zeta.
  assert (Hkeep : forall c acts s,
    ((field_of taskCompleted (database s) key = Some true
      <-> 0 < completed_of (database s) key)
     /\ 0 <= completed_of (database s) key /\ c <= completed_of (database s) key) ->
    (field_of taskCompleted (database (play acts s)) key = Some true
     <-> 0 < completed_of (database (play acts s)) key)
    /\ 0 <= completed_of (database (play acts s)) key
    /\ c <= completed_of (database (play acts s)) key).
  { intros c.
    apply (play_preserves (fun db =>
      (field_of taskCompleted db key = Some true <-> 0 < completed_of db key)
      /\ 0 <= completed_of db key /\ c <= completed_of db key)).
    intros now A op db (Hiff & Hpos & Hc).
    destruct (exec_completion_fields now A op db key Hiff Hpos) as [Hiff' Hle].
    split; [exact Hiff' |]. lia. }
  destruct (Hkeep 0 acts1 boot) as (H1 & H2 & _).
  { unfold completed_of, field_of. cbn. rewrite lookup_empty. cbn.
    split; [| lia]. split; [discriminate | lia]. }
  rewrite play_app.
  destruct (Hkeep (completed_of (database (play acts1 boot)) key) acts2
                  (play acts1 boot)) as (_ & _ & H3).
  { split; [exact H1 |]. lia. }
  auto.
Qed.

(** Display names under one operation. *)
Lemma exec_usernames_not_empty (now : Z) (A : Type) (op : Op A) (db : Db) :
  usernames_not_empty db -> usernames_not_empty (snd (exec now op db)).
Proof.
  intros [Hu Hb].
  destruct op as [k | k userRef status | k | k t | k delta uname | n];
    cbn [exec snd]; try (split; assumption).
  - split; [| exact Hb]. intros key u. cbn [users set_users].
    destruct (decide (k = key)) as [<- | Hk].
    + rewrite lookup_insert_eq. intros [= <-].
      destruct t as [uname referrerId | | award]; cbn [user_tx].
      * destruct (users db !! k) as [u |] eqn:E; cbn.
        -- destruct (negb (truthy (username u)) && truthy uname) eqn:T;
             [| exact (Hu k u E)].
           apply andb_true_iff in T as [_ T]. intros ->. discriminate.
        -- apply or_null_not_empty.
      * destruct (users db !! k) as [u |] eqn:E; cbn;
          [exact (Hu k u E) | discriminate].
      * destruct (users db !! k) as [u |] eqn:E; cbn;
          [exact (Hu k u E) | discriminate].
    + rewrite lookup_insert_ne by exact Hk. apply Hu.
  - split; [exact Hu |]. intros key e. cbn [leaderboard set_leaderboard].
    destruct (decide (k = key)) as [<- | Hk].
    + rewrite lookup_insert_eq. intros [= <-].
      destruct (leaderboard db !! k) as [e |] eqn:E; cbn.
      * destruct (truthy uname && negb (truthy (lb_username e))) eqn:T;
          [| exact (Hb k e E)].
        apply andb_true_iff in T as [T _]. intros ->. discriminate.
      * apply or_null_not_empty.
    + rewrite lookup_insert_ne by exact Hk. apply Hb.
Qed.

Lemma exec_keeps_username (key n : string) (now : Z) (A : Type) (op : Op A) (db : Db) :
  n <> "" ->
  field_of username db key = Some n ->
  field_of username (snd (exec now op db)) key = Some n.
Proof.
  intros Hn Hdb. apply truthy_Some in Hn. unfold field_of in *.
  destruct op as [k | k userRef status | k | k t | k delta uname | i];
    cbn [exec snd users set_installs set_users set_leaderboard]; try exact Hdb.
  destruct (decide (k = key)) as [<- | Hk];
    [| rewrite lookup_insert_ne by exact Hk; exact Hdb].
  rewrite lookup_insert_eq.
  destruct (users db !! k) as [u |]; [| discriminate].
  destruct t as [uname referrerId | | award]; cbn; try exact Hdb.
  rewrite Hdb, Hn. reflexivity.
Qed.

Lemma exec_keeps_board_username (key n : string) (now : Z) (A : Type) (op : Op A)
    (db : Db) :
  n <> "" ->
  board_username_of db key = Some n ->
  board_username_of (snd (exec now op db)) key = Some n.
Proof.
  intros Hn Hdb. apply truthy_Some in Hn. unfold board_username_of in *.
  destruct op as [k | k userRef status | k | k t | k delta uname | i];
    cbn [exec snd leaderboard set_installs set_users set_leaderboard]; try exact Hdb.
  destruct (decide (k = key)) as [<- | Hk];
    [| rewrite lookup_insert_ne by exact Hk; exact Hdb].
  rewrite lookup_insert_eq.
  destruct (leaderboard db !! k) as [e |]; [| discriminate].
  cbn. rewrite Hdb, Hn. rewrite andb_false_r. reflexivity.
Qed.

Lemma boot_usernames_not_empty : usernames_not_empty (database boot).
Proof.
  split; intros k x H; cbn in H; rewrite lookup_empty in H; discriminate.
Qed.

(** X8. Display names are written once: in every store the server can
    reach from the empty one, a user record that has a [username] and a
    leaderboard entry that has a [username] keep them through whatever
    happens next; later [/start] commands with another name, and later
    credits that carry another name, do not overwrite them. The ids of
    the requests are keys. *)
Theorem display_names_set_once
    (acts1 acts2 : list (Z * Action)) (k n k' n' : string) :
  forallb (fun a => valid_action (snd a)) (acts1 ++ acts2)%list = true ->
  let s1 := play acts1 boot in
  let s2 := play (acts1 ++ acts2)%list boot in
  field_of username (database s1) k = Some n ->
  board_username_of (database s1) k' = Some n' ->
  field_of username (database s2) k = Some n
  /\ board_username_of (database s2) k' = Some n'.
Proof.
  intros _. cbv zeta. intros Hu Hb.
  pose proof (play_preserves usernames_not_empty exec_usernames_not_empty
                acts1 boot boot_usernames_not_empty) as [Hinv1 Hinv2].
  assert (Hn : n <> "").
  { unfold field_of in Hu.
    destruct (users (database (play acts1 boot)) !! k) as [u |] eqn:E;
      [| discriminate].
    intros ->. exact (Hinv1 k u E Hu). }
  assert (Hn' : n' <> "").
  { unfold board_username_of in Hb.
    destruct (leaderboard (database (play acts1 boot)) !! k') as [e |] eqn:E;
      [| discriminate].
    intros ->. exact (Hinv2 k' e E Hb). }
  rewrite play_app. split.
  - revert Hu. apply (play_preserves (fun db => field_of username db k = Some n)).
    intros. apply exec_keeps_username; assumption.
  - revert Hb.
    apply (play_preserves (fun db => board_username_of db k' = Some n')).
    intros. apply exec_keeps_board_username; assumption.
Qed.

(** The ledger under one operation of a handler. *)
Lemma exec_installs_well_formed (now : Z) (A : Type) (op : Op A) (db : Db) :
  handler_op A op ->
  installs_well_formed db -> installs_well_formed (snd (exec now op db)).
Proof.
  intros Hop Hdb.
  destruct op as [k | k userRef status | k | k t | k delta uname | n];
    cbn [exec snd]; try exact Hdb.
  intros key rec. cbn [installs set_installs].
  destruct (decide (k = key)) as [<- | Hk].
  - rewrite lookup_insert_eq. intros [= <-]. cbn. split; [reflexivity | exact Hop].
  - rewrite lookup_insert_ne by exact Hk. apply Hdb.
Qed.

Lemma okStatuses_has_spec (s : string) :
  okStatuses_has s = true <-> In s okStatuses.
Proof.
  unfold okStatuses_has. rewrite existsb_exists. split.
  - intros (x & Hx & Heq). apply String.eqb_eq in Heq. subst. exact Hx.
  - intros H. exists s. split; [exact H | apply String.eqb_refl].
Qed.

(** X9. Every record of the install ledger, in every store the server can
    reach from the empty one (requests interleaved in any order, their ids
    being keys), carries its own key as [installId] and one of the four
    accepted statuses, in lower case, as [providerStatus]. *)
Theorem ledger_records_well_formed
    (acts : list (Z * Action)) (k : string) (rec : InstallRecord) :
  forallb (fun a => valid_action (snd a)) acts = true ->
  installs (database (play acts boot)) !! k = Some rec ->
  installId rec = k
  /\ In (providerStatus rec) ["completed"; "approved"; "paid"; "success"].
Proof.
  intros _ Hrec.
  destruct (play_preserves_ops handler_op installs_well_formed
              exec_installs_well_formed handler_ops acts boot (Forall_nil_2 _))
    as [_ Hinv].
  { intros key r H. cbn in H. rewrite lookup_empty in H. discriminate. }
  destruct (Hinv k rec Hrec) as [Hid Hst]. split; [exact Hid |].
  apply okStatuses_has_spec, Hst.
Qed.

(** X10. Served one after the other, requests whose ids are keys never
    rewrite the ledger: a record of [installs], once there, is the same
    record after any further sequence of requests (a repeated or
    conflicting callback for the same [installId] included). *)
Theorem ledger_immutable_when_sequential
    (evs : list (Z * Event)) (db : Db) (k : string) (rec : InstallRecord) :
  forallb (fun e => valid_event (snd e)) evs = true ->
  installs db !! k = Some rec ->
  installs (fst (replay evs db)) !! k = Some rec.
Proof.
  intros _. revert db. induction evs as [| [now ev] evs IH]; intros db Hrec; [exact Hrec |].
  cbn [replay].
  assert (Hserve : installs (fst (serve now ev db)) !! k = Some rec).
  { destruct ev as [userId uname referrerId | chatId refCode uname | req | param].
    - exact Hrec.
    - exact Hrec.
    - change (fst (serve now (EvCallback req) db))
        with (final (run now (callback req) db)).
      destruct (callback_cases req) as [[res ->] | (iid & st & _ & ->)];
        [exact Hrec |].
      rewrite process_install_installs.
      destruct (installs db !! iid) as [old |] eqn:E; [exact Hrec |].
      rewrite lookup_insert_ne; [exact Hrec | congruence].
    - unfold serve, leaderboard_top. destruct (effective_n param); exact Hrec. }
  destruct (serve now ev db) as [db' log]. cbn [fst] in Hserve.
  specialize (IH db' Hserve). destruct (replay evs db') as [db'' log'].
  exact IH.
Qed.

(** X11. A user whose record was created by a credit (the referrer id had
    not registered yet) and who then sends [/start] keeps the partial
    record: the points earned are kept, the name is filled in, but [id],
    [joinedAt], [completedInstalls] and [taskCompleted] stay missing,
    because [upsertUser] initialises them only when there is no record.
    The install id, the user id and the referrer id are keys. *)
Theorem registration_after_credit_keeps_partial_record
    (now1 now2 : Z) (req : Request) (db : Db) (iid uid : string) (usr : User)
    (r : string) (uname : option string) :
  valid_key iid = true -> valid_key uid = true -> valid_key r = true ->
  PROVIDER_CALLBACK_SECRET <> "" ->
  signature req = Some (expected_signature req) ->
  expected_signature req <> "" ->
  body_installId (body req) = Some iid -> iid <> "" ->
  body_userRefId (body req) = Some uid -> uid <> "" ->
  okStatuses_has (normalize_status (body_providerStatus (body req))) = true ->
  installs db !! iid = None ->
  users db !! uid = Some usr ->
  referrer usr = Some r -> r <> "" -> r <> uid ->
  users db !! r = None ->
  let db1 := final (run now1 (callback req) db) in
  let db2 := final (run now2 (start r None uname) db1) in
  users db2 !! r
  = Some (mkUser None (or_null uname) None None (Some POINTS_FOR_COMPLETION)
                 None None).
Proof.
  intros _ _ _ Hsec Hsig Hexp Hi Hine Hu Hune Hst Hnone Husr Href Hr Hne Hrnone.
  cbv zeta.
  rewrite (callback_accepted req iid uid) by assumption.
  assert (Hor : or_null (referrer usr) = Some r).
  { rewrite Href. apply or_null_truthy, truthy_Some, Hr. }
  rewrite (process_install_credit _ _ _ _ _ usr r Hnone Husr Hor Hne).
  unfold start, upsertUser, call, final. cbn [run exec fst snd].
  cbn [users set_users]. rewrite !lookup_insert_eq.
  cbn [user_tx]. rewrite Hrnone. cbn [credit_update upsertUser_update].
  cbn [referrer username id joinedAt points completedInstalls taskCompleted truthy].
  cbn [negb andb]. unfold or_null. destruct (truthy uname); reflexivity.
Qed.

(** ** Links and the text of [/start] *)

Lemma append_cons (c : ascii) (p s : string) :
  String c p ++ s = String c (p ++ s).
Proof. reflexivity. Qed.

Lemma append_nil (s : string) : "" ++ s = s.
Proof. reflexivity. Qed.

Lemma append_empty_r (s : string) : s ++ "" = s.
Proof.
  induction s as [| c s IH]; [reflexivity |].
  rewrite append_cons, IH. reflexivity.
Qed.

Lemma length_append (p s : string) :
  String.length (p ++ s) = (String.length p + String.length s)%nat.
Proof.
  induction p as [| c p IH]; [reflexivity |].
  rewrite append_cons. cbn [String.length]. rewrite IH. reflexivity.
Qed.

Lemma append_inj_l (p a b : string) : p ++ a = p ++ b -> a = b.
Proof.
  induction p as [| c p IH]; rewrite ?append_nil, ?append_cons; [auto |].
  intros [= H]. auto.
Qed.

Lemma hex_value_upper (k : nat) : (k < 16)%nat -> hex_value (hex_upper k) = k.
Proof.
  intros Hk. do 16 (destruct k as [| k]; [reflexivity |]). lia.
Qed.

Lemma unreserved_not_percent (c : ascii) : unreserved c = true -> c <> "%"%char.
Proof. intros H ->. discriminate. Qed.

Lemma percent_decode_plain (fuel : nat) (c : ascii) (s : string) :
  c <> "%"%char ->
  percent_decode (S fuel) (String c s) = String c (percent_decode fuel s).
Proof.
  intros Hc. destruct c as [[] [] [] [] [] [] [] []]; try reflexivity.
  contradiction Hc. reflexivity.
Qed.

Lemma encode_decode (s : string) (fuel : nat) :
  (String.length (encodeURIComponent s) <= fuel)%nat ->
  percent_decode fuel (encodeURIComponent s) = s.
Proof.
  revert fuel. induction s as [| c s IH]; intros fuel Hlen.
  - destruct fuel; reflexivity.
  - cbn [encodeURIComponent] in *. destruct (unreserved c) eqn:U.
    + cbn [String.length] in Hlen. destruct fuel as [| fuel]; [lia |].
      rewrite percent_decode_plain by (apply unreserved_not_percent, U).
      rewrite IH by lia. reflexivity.
    + cbn [String.length] in Hlen. destruct fuel as [| fuel]; [lia |].
      cbn [percent_decode].
      pose proof (nat_ascii_bounded c) as Hb.
      rewrite !hex_value_upper.
      * rewrite <- (Nat.div_mod_eq (nat_of_ascii c) 16), ascii_nat_embedding.
        rewrite IH by lia. reflexivity.
      * apply Nat.mod_upper_bound. lia.
      * apply Nat.Div0.div_lt_upper_bound. lia.
Qed.

Lemma encodeURIComponent_inj (s1 s2 : string) :
  encodeURIComponent s1 = encodeURIComponent s2 -> s1 = s2.
Proof.
  intros H.
  rewrite <- (encode_decode s1 _ (Nat.le_refl _)).
  rewrite <- (encode_decode s2 _ (Nat.le_refl _)).
  rewrite H. reflexivity.
Qed.

Lemma id_char_unreserved (c : ascii) : id_char c = true -> unreserved c = true.
Proof.
  unfold id_char, is_digit, unreserved. cbv zeta.
  destruct (Ascii.eqb_spec c "-") as [-> | _]; [reflexivity |].
  rewrite orb_false_r. intros ->. reflexivity.
Qed.

Lemma encodeURIComponent_id (s : string) :
  id_chars s = true -> encodeURIComponent s = s.
Proof.
  induction s as [| c s IH]; cbn; [reflexivity |].
  intros H. apply andb_true_iff in H as [Hc Hs].
  rewrite (id_char_unreserved c Hc), (IH Hs). reflexivity.
Qed.

(** X12. The links identify the user: two different ids never get the
    same offer link, nor the same referral link, and an id written with
    digits (and a sign) appears in both links exactly as it is. *)
Theorem links_identify_the_user (u v botname : string) (getMe : GetMe) :
  u <> v ->
  botname <> "" ->
  id_chars u = true ->
  buildOfferLink u <> buildOfferLink v
  /\ fst (buildReferralLink (Some botname) getMe u)
     <> fst (buildReferralLink (Some botname) getMe v)
  /\ buildOfferLink u
     = "https://your-offer-provider.example.com/install?user=" ++ u
  /\ fst (buildReferralLink (Some botname) getMe u)
     = Some ("https://t.me/" ++ botname ++ "?start=" ++ u).
Proof.
  intros Huv Hbot Hid. apply truthy_Some in Hbot.
  unfold buildOfferLink, buildReferralLink, ensureBotUsername.
  rewrite Hbot. cbn [fst interpolate].
  rewrite (encodeURIComponent_id u Hid).
  split; [| split; [| split; reflexivity]].
  - intros H. apply append_inj_l in H.
    rewrite <- (encodeURIComponent_id u Hid) in H.
    apply encodeURIComponent_inj in H. contradiction.
  - intros [= H]. apply append_inj_l in H.
    assert (H' : "?start=" ++ u = "?start=" ++ encodeURIComponent v).
    { eapply append_inj_l. exact H. }
    apply append_inj_l in H'.
    rewrite <- (encodeURIComponent_id u Hid) in H'.
    apply encodeURIComponent_inj in H'. contradiction.
Qed.

(** X13. The bot username is asked for once: after a [getMe] that gave a
    username, every later referral link uses that username, whatever a
    later [getMe] would answer (another name, no name, a rejection), and the
    remembered name is not replaced. When [getMe] rejects and no name is
    remembered, no link is built and nothing is remembered. *)
Theorem bot_username_is_cached (n a b : string) (later : GetMe) :
  n <> "" ->
  let first := buildReferralLink None (GetMeResolves (Some n)) a in
  let second := buildReferralLink (snd first) later b in
  fst first = Some ("https://t.me/" ++ n ++ "?start=" ++ encodeURIComponent a)
  /\ snd first = Some n
  /\ fst second = Some ("https://t.me/" ++ n ++ "?start=" ++ encodeURIComponent b)
  /\ snd second = Some n
  /\ buildReferralLink None GetMeRejects a = (None, None).
Proof.
  intros Hn. apply truthy_Some in Hn. cbv zeta.
  unfold buildReferralLink, ensureBotUsername. cbn [truthy fst snd interpolate].
  cbn [truthy] in Hn. rewrite Hn. cbn [fst snd interpolate]. auto.
Qed.

(** The text after ["/start"], when the text begins with it. *)
Lemma after_first_prefix (p s : string) :
  after_first p (p ++ s) = Some s.
Proof.
  assert (Hsw : forall q t, starts_with q (q ++ t) = true).
  { induction q as [| c q IH]; intros t; [reflexivity |].
    rewrite append_cons. cbn [starts_with].
    rewrite Ascii.eqb_refl, IH. reflexivity. }
  assert (Hdrop : forall q t, drop_chars (String.length q) (q ++ t) = t).
  { induction q as [| c q IH]; intros t; [reflexivity |].
    rewrite append_cons. cbn [String.length drop_chars]. apply IH. }
  destruct p as [| c p]; [destruct s; reflexivity |].
  rewrite append_cons. cbn [after_first]. rewrite <- append_cons.
  rewrite Hsw, Hdrop. reflexivity.
Qed.

Lemma skip_spaces_all (ws s : string) :
  all_chars is_space ws = true -> skip_spaces (ws ++ s) = skip_spaces s.
Proof.
  induction ws as [| c ws IH]; [reflexivity |].
  rewrite append_cons. cbn [all_chars skip_spaces].
  intros H. apply andb_true_iff in H as [-> Hws]. apply IH, Hws.
Qed.

Lemma skip_spaces_length (s : string) :
  (String.length (skip_spaces s) <= String.length s)%nat.
Proof.
  induction s as [| c s IH]; cbn; [lia |].
  destruct (is_space c); cbn; lia.
Qed.

Lemma non_space_prefix_code (code tail : string) :
  all_chars (fun c => negb (is_space c)) code = true ->
  skip_spaces tail <> tail \/ tail = "" ->
  non_space_prefix (code ++ tail) = code.
Proof.
  intros Hcode Htail. induction code as [| c code IH].
  - rewrite append_nil.
    destruct tail as [| t tail]; [reflexivity |].
    cbn [skip_spaces non_space_prefix] in *.
    destruct (is_space t); [reflexivity |].
    destruct Htail as [H | H]; [contradiction H; reflexivity | discriminate].
  - rewrite append_cons. cbn [all_chars non_space_prefix] in *.
    apply andb_true_iff in Hcode as [Hc Hcode].
    apply negb_true_iff in Hc. rewrite Hc, (IH Hcode). reflexivity.
Qed.

Lemma after_first_found (p pre rest : string) :
  after_first p (pre ++ p ++ rest) <> None.
Proof.
  induction pre as [| c pre IH].
  - rewrite append_nil, after_first_prefix. discriminate.
  - rewrite append_cons. cbn [after_first].
    destruct (starts_with p (String c (pre ++ p ++ rest))); [discriminate | exact IH].
Qed.

Lemma match_start_code (ws code tail : string) :
  ws <> "" -> all_chars is_space ws = true ->
  code <> "" -> all_chars (fun c => negb (is_space c)) code = true ->
  skip_spaces tail <> tail \/ tail = "" ->
  match_start ("/start" ++ ws ++ code ++ tail) = Some (Some code).
Proof.
  intros Hws Hsp Hcode Hns Htail.
  assert (Hskip : skip_spaces (code ++ tail) = code ++ tail).
  { destruct code as [| c code]; [contradiction Hcode; reflexivity |].
    rewrite append_cons. cbn [all_chars skip_spaces] in *.
    apply andb_true_iff in Hns as [Hc _].
    apply negb_true_iff in Hc. rewrite Hc. reflexivity. }
  unfold match_start. rewrite after_first_prefix. cbv zeta.
  rewrite (skip_spaces_all ws _ Hsp), Hskip.
  rewrite (non_space_prefix_code code tail Hns Htail).
  assert (Hlen : (String.length (code ++ tail)
                  <? String.length (ws ++ code ++ tail))%nat = true).
  { apply Nat.ltb_lt. destruct ws as [| w ws]; [contradiction Hws; reflexivity |].
    rewrite append_cons. cbn [String.length].
    rewrite !length_append. lia. }
  rewrite Hlen.
  destruct (String.eqb_spec (code ++ tail) "") as [E | _]; [| reflexivity].
  destruct code; [contradiction Hcode; reflexivity |].
  rewrite append_cons in E. discriminate.
Qed.

(** X14. What [/start] reads as referral code in an ASCII text: when the
    text is ["/start"], then white space, then a code without white space,
    then nothing or white space and anything, the code is captured whole; a
    ["/start"] followed by white space only carries no code; and the
    command is recognised anywhere in a text, not only at its beginning. *)
Theorem start_code_is_captured (ws code tail pre rest : string) :
  ascii_only code = true -> ascii_only tail = true ->
  ascii_only pre = true -> ascii_only rest = true ->
  ws <> "" -> all_chars is_space ws = true ->
  code <> "" -> all_chars (fun c => negb (is_space c)) code = true ->
  skip_spaces tail <> tail \/ tail = "" ->
  match_start ("/start" ++ ws ++ code ++ tail) = Some (Some code)
  /\ match_start ("/start" ++ ws) = Some None
  /\ match_start (pre ++ "/start" ++ rest) <> None.
Proof.
  intros _ _ _ _ Hws Hsp Hcode Hns Htail.
  split; [apply match_start_code; assumption | split].
  - unfold match_start. rewrite after_first_prefix. cbv zeta.
    assert (E : skip_spaces ws = "").
    { clear -Hsp. induction ws as [| c ws IH]; cbn in *; [reflexivity |].
      apply andb_true_iff in Hsp as [-> Hsp]. auto. }
    rewrite E. cbn. rewrite andb_false_r. reflexivity.
  - unfold match_start.
    destruct (after_first "/start" (pre ++ "/start" ++ rest)) eqn:E.
    + cbv zeta. destruct (_ && _); discriminate.
    + apply after_first_found in E. contradiction.
Qed.

Lemma id_chars_no_space (s : string) :
  id_chars s = true -> all_chars (fun c => negb (is_space c)) s = true.
Proof.
  induction s as [| c s IH]; [reflexivity |]. cbn [id_chars all_chars].
  intros H. apply andb_true_iff in H as [Hc Hs]. rewrite (IH Hs), andb_true_r.
  clear -Hc. unfold id_char, is_digit, is_space in *. cbv zeta in *.
  destruct (Ascii.eqb_spec c "-") as [E | _]; [rewrite E; reflexivity |].
  rewrite orb_false_r in Hc. apply andb_true_iff in Hc as [H1 H2].
  apply Nat.leb_le in H1, H2. apply negb_true_iff, orb_false_iff. split.
  - apply Nat.eqb_neq. lia.
  - apply andb_false_iff. right. apply Nat.leb_gt. lia.
Qed.

(** X15. A referral from link to points. A's referral link carries A's
    id as it is; a new user B who opens it sends ["/start <A's id>"] and is
    stored with A as referrer; the first accepted completion callback for B
    then answers [ok], counts one install for B, and raises A's points and
    A's leaderboard entry by the award. The ids of A and B and the install
    id are keys. *)
Theorem referral_link_leads_to_credit
    (now1 now2 : Z) (botname a b iid : string) (getMe : GetMe)
    (uname : option string) (req : Request) (db : Db) :
  valid_key a = true -> valid_key b = true -> valid_key iid = true ->
  botname <> "" ->
  a <> "" -> id_chars a = true -> a <> b ->
  users db !! b = None ->
  PROVIDER_CALLBACK_SECRET <> "" ->
  signature req = Some (expected_signature req) ->
  expected_signature req <> "" ->
  body_installId (body req) = Some iid -> iid <> "" ->
  body_userRefId (body req) = Some b -> b <> "" ->
  okStatuses_has (normalize_status (body_providerStatus (body req))) = true ->
  installs db !! iid = None ->
  let db1 := final (run now1 (on_start (mkMessage b ("/start " ++ a) uname)) db) in
  let x := run now2 (callback req) db1 in
  fst (buildReferralLink (Some botname) getMe a)
  = Some ("https://t.me/" ++ botname ++ "?start=" ++ a)
  /\ referrer_of db1 b = Some a
  /\ result x = res_ok
  /\ completed_of (final x) b = 1
  /\ user_points (final x) a = user_points db a + POINTS_FOR_COMPLETION
  /\ board_points (final x) a = board_points db a + POINTS_FOR_COMPLETION.
Proof.
  intros _ _ _ Hbot Ha Hid Hab Hnew Hsec Hsig Hexp Hi Hine Hu Hune Hst Hnone.
  cbv zeta.
  split.
  { apply truthy_Some in Hbot. unfold buildReferralLink, ensureBotUsername.
    rewrite Hbot. cbn [fst interpolate].
    rewrite (encodeURIComponent_id a Hid). reflexivity. }
  assert (Hm : match_start ("/start " ++ a) = Some (Some a)).
  { pose proof (match_start_code " " a "") as H.
    rewrite append_empty_r in H.
    change ("/start" ++ " " ++ a) with ("/start " ++ a) in H.
    apply H; auto using id_chars_no_space. }
  unfold on_start. cbn [msg_text chat_id from_name]. rewrite Hm.
  rewrite (start_new_user_referred now1 b a uname db Hnew Ha Hab).
  set (usr := mkUser (Some b) (or_null uname) (Some now1) (Some a)
                     (Some 0) (Some 0) (Some false)).
  set (db1 := set_users (insert b usr) db).
  assert (Hb : users db1 !! b = Some usr).
  { unfold db1. cbn [users set_users]. apply lookup_insert_eq. }
  assert (Hra : users db1 !! a = users db !! a).
  { unfold db1. cbn [users set_users]. apply lookup_insert_ne. congruence. }
  split; [unfold referrer_of; rewrite Hb; reflexivity |].
  rewrite (callback_accepted req iid b) by assumption.
  assert (Hor : or_null (referrer usr) = Some a).
  { cbn [referrer usr]. apply or_null_truthy, truthy_Some, Ha. }
  rewrite (process_install_credit now2 iid b _ db1 usr a Hnone Hb Hor Hab).
  unfold result, final, completed_of, field_of, user_points, board_points.
  cbn [fst snd users leaderboard].
  rewrite (lookup_insert_ne _ a b) by congruence.
  rewrite !lookup_insert_eq, credit_update_points, bumpLeaderboard_update_points.
  rewrite Hra. split; [reflexivity |]. split; [reflexivity |].
  split; reflexivity.
Qed.

(** ** The leaderboard answer holds the highest entries *)

Lemma child_leb_total (a b : string * LeaderboardEntry) :
  child_leb a b = true \/ child_leb b a = true.
Proof.
  unfold child_leb.
  destruct (lb_points (snd a)) as [x |], (lb_points (snd b)) as [y |]; auto.
  - destruct (Z.ltb_spec x y); [auto |].
    destruct (Z.ltb_spec y x); [auto |].
    assert (x = y) as -> by lia. rewrite Z.eqb_refl. cbn [orb andb].
    apply String.leb_total.
  - apply String.leb_total.
Qed.

Lemma child_leb_trans (a b c : string * LeaderboardEntry) :
  child_leb a b = true -> child_leb b c = true -> child_leb a c = true.
Proof.
  unfold child_leb.
  destruct (lb_points (snd a)) as [x |], (lb_points (snd b)) as [y |],
           (lb_points (snd c)) as [z |]; try discriminate; auto.
  - rewrite !orb_true_iff, !andb_true_iff, !Z.ltb_lt, !Z.eqb_eq.
    intros [Hxy | [-> Hab]] [Hyz | [-> Hbc]]; [left; lia | auto | auto |].
    right. split; [reflexivity |]. eapply key_leb_trans; eassumption.
  - apply key_leb_trans.
Qed.

Lemma limitToLast_perm (n : Z) (board : gmap string LeaderboardEntry) :
  let ordered := stable_sort child_leb (map_to_list board) in
  limitToLast n board
  ≡ₚ drop (List.length ordered - Z.to_nat n) ordered.
Proof.
  cbv zeta. unfold limitToLast, take_last. apply stable_sort_perm.
Qed.

(** X16. [GET /leaderboard/top/:n] with a numeric [:n] answers with the
    highest entries of the leaderboard: as many as the clamped [n] allows
    (all of them when the leaderboard is smaller), each key once, each with
    its stored entry, and an entry left out never has more points than an
    entry in the answer. The store is not written. (Which of several
    entries with the same points are left out depends on the order of the
    keys, about which nothing is said here.) *)
Theorem leaderboard_top_holds_the_highest
    (now : Z) (param : string) (n : Z) (db : Db) :
  effective_n param = Some n ->
  exists top,
    result (run now (leaderboard_top param) db) = Some top
    /\ final (run now (leaderboard_top param) db) = db
    /\ List.length top = Nat.min (Z.to_nat n) (size (leaderboard db))
    /\ NoDup (top.*1)
    /\ (forall k e, (k, e) ∈ top -> leaderboard db !! k = Some e)
    /\ (forall k e k' e' p p',
          (k, e) ∈ top -> leaderboard db !! k' = Some e' -> (k', e') ∉ top ->
          lb_points e = Some p -> lb_points e' = Some p' -> p' <= p).
Proof.
  intros Hn. unfold leaderboard_top. rewrite Hn.
  set (board := leaderboard db).
  set (ordered := stable_sort child_leb (map_to_list board)).
  set (cut := (List.length ordered - Z.to_nat n)%nat).
  exists (stable_sort by_points_desc (limitToLast n board)).
  assert (Hperm : stable_sort by_points_desc (limitToLast n board)
                  ≡ₚ drop cut ordered).
  { rewrite stable_sort_perm. apply limitToLast_perm. }
  assert (Hord : ordered ≡ₚ map_to_list board) by apply stable_sort_perm.
  assert (Hlen : List.length ordered = size board).
  { rewrite (Permutation_length Hord). apply length_map_to_list. }
  assert (Hsorted : StronglySorted (fun a b => child_leb a b = true) ordered).
  { apply Sorted.Sorted_StronglySorted.
    - intros a b c. apply child_leb_trans.
    - apply stable_sort_Sorted, child_leb_total. }
  split; [reflexivity |]. split; [reflexivity |].
  split; [| split; [| split]].
  - rewrite (Permutation_length Hperm), length_drop. unfold cut. lia.
  - rewrite Hperm. eapply sublist_NoDup; [| apply fmap_sublist, sublist_drop].
    rewrite Hord. apply NoDup_fst_map_to_list.
  - intros k e. rewrite stable_sort_perm. apply limitToLast_elem_of.
  - intros k e k' e' p p' Hin Hboard Hout Hp Hp'. rewrite Hperm in Hin, Hout.
    assert (Hin' : (k', e') ∈ take cut ordered).
    { apply elem_of_map_to_list in Hboard. rewrite <- Hord in Hboard.
      rewrite <- (take_drop cut ordered) in Hboard.
      apply elem_of_app in Hboard as [H | H]; [exact H | contradiction]. }
    rewrite <- (take_drop cut ordered) in Hsorted.
    pose proof (StronglySorted_app_1_elem_of _ _ _ _ _ Hsorted Hin' Hin) as Hle.
    unfold child_leb in Hle. cbn [fst snd] in Hle.
    rewrite Hp, Hp' in Hle.
    apply orb_true_iff in Hle as [H | H].
    + apply Z.ltb_lt in H. lia.
    + apply andb_true_iff in H as [H _]. apply Z.eqb_eq in H. lia.
Qed.

(** ** The [/leaderboard] command *)

Lemma limitToLast_length_eq (n : Z) (board : gmap string LeaderboardEntry) :
  List.length (limitToLast n board) = Nat.min (Z.to_nat n) (size board).
Proof.
  rewrite (Permutation_length (limitToLast_perm n board)), length_drop.
  rewrite stable_sort_length, length_map_to_list. lia.
Qed.

(** X17. The [/leaderboard] command shows what [GET /leaderboard/top/50]
    returns: the same entries in the same order, one line each under the
    header, as many lines as the leaderboard has entries, up to 50. It answers with the
    "empty" notice exactly when the leaderboard has no entry, and it writes
    nothing. *)
Theorem leaderboard_command_shows_the_top_50 (now : Z) (db : Db) :
  let x := run now on_leaderboard db in
  let top := result (run now (leaderboard_top "50") db) in
  final x = db
  /\ (leaderboard db = ∅ <-> result x = leaderboard_empty_text)
  /\ exists arr,
       top = Some arr
       /\ List.length arr = Nat.min 50 (size (leaderboard db))
       /\ (leaderboard db <> ∅ ->
           result x
           = leaderboard_header ++ newline ++ newline
             ++ join newline (imap line arr)).
Proof.
  cbv zeta. unfold on_leaderboard, leaderboard_top, call, result, final.
  change (effective_n "50") with (Some 50).
  cbn [bind run exec fst snd].
  set (arr := stable_sort by_points_desc (limitToLast 50 (leaderboard db))).
  assert (Hlen : List.length arr = Nat.min 50 (size (leaderboard db))).
  { unfold arr. rewrite stable_sort_length, limitToLast_length_eq. reflexivity. }
  assert (Hempty : leaderboard db = ∅ <-> arr = []).
  { rewrite <- map_size_empty_iff. destruct arr; cbn [List.length] in Hlen.
    - split; [reflexivity | intros _; lia].
    - split; [lia | discriminate]. }
  assert (Hrun : forall (l : list (string * LeaderboardEntry)),
             run now
               (match l with
                | [] => Return leaderboard_empty_text
                | _ :: _ =>
                    Return (leaderboard_header ++ newline ++ newline
                            ++ join newline (imap line l))
                end) db
             = (match l with
                | [] => leaderboard_empty_text
                | _ :: _ => leaderboard_header ++ newline ++ newline
                            ++ join newline (imap line l)
                end, db, [])).
  { intros []; reflexivity. }
  rewrite Hrun. cbn [fst snd].
  split; [reflexivity |]. split.
  - rewrite Hempty. destruct arr as [| a arr']; [split; reflexivity |].
    split; [discriminate |]. intros H. exfalso.
    apply (f_equal (fun s => String.get 3 s)) in H. vm_compute in H. discriminate.
  - exists arr. split; [reflexivity |]. split; [exact Hlen |].
    intros Hne. destruct arr as [| a arr']; [| reflexivity].
    contradiction Hne. apply Hempty. reflexivity.
Qed.

(** ** The [/broadcast] command *)

Lemma broadcast_loop_calls (sendMessage : string -> string -> bool)
    (uids : list string) (message : string) :
  fst (broadcast_loop sendMessage uids message) = map (fun uid => (uid, message)) uids.
Proof.
  induction uids as [| uid rest IH]; [reflexivity |]. cbn [broadcast_loop map].
  destruct (broadcast_loop sendMessage rest message) as [calls warned].
  cbn [fst] in *. rewrite IH. reflexivity.
Qed.

Lemma broadcast_loop_warned (sendMessage : string -> string -> bool)
    (uids : list string) (message : string) (uid : string) :
  uid ∈ snd (broadcast_loop sendMessage uids message)
  <-> uid ∈ uids /\ sendMessage uid message = false.
Proof.
  induction uids as [| u rest IH]; cbn [broadcast_loop].
  - cbn [snd]. rewrite !elem_of_nil. split; [intros [] | intros [[] _]].
  - destruct (broadcast_loop sendMessage rest message) as [calls warned].
    cbn [snd] in *. rewrite elem_of_cons.
    destruct (sendMessage u message) eqn:E.
    + rewrite IH. split.
      * intros [H Hs]. split; [right; exact H | exact Hs].
      * intros [[-> | H] Hs]; [rewrite E in Hs; discriminate | split; assumption].
    + rewrite elem_of_cons, IH. split.
      * intros [-> | [H Hs]]; [split; [left; reflexivity | exact E] |].
        split; [right; exact H | exact Hs].
      * intros [[-> | H] Hs]; [left; reflexivity | right; split; assumption].
Qed.

Lemma trim_end_idem (s : string) : trim_end (trim_end s) = trim_end s.
Proof.
  induction s as [| c s IH]; [reflexivity |]. cbn [trim_end].
  destruct (is_space c && String.eqb (trim_end s) "") eqn:E; [reflexivity |].
  cbn [trim_end]. rewrite IH, E. reflexivity.
Qed.

Lemma trim_end_keeps_start (s : string) :
  skip_spaces s = s -> skip_spaces (trim_end s) = trim_end s.
Proof.
  destruct s as [| c s]; [reflexivity |]. cbn [skip_spaces trim_end].
  destruct (is_space c) eqn:E.
  - intros H. exfalso.
    pose proof (skip_spaces_length s) as Hl. rewrite H in Hl.
    cbn [String.length] in Hl. lia.
  - intros _. cbn [andb skip_spaces]. rewrite E. reflexivity.
Qed.

Lemma skip_spaces_idem (s : string) : skip_spaces (skip_spaces s) = skip_spaces s.
Proof.
  induction s as [| c s IH]; [reflexivity |]. cbn [skip_spaces].
  destruct (is_space c) eqn:E; [exact IH |]. cbn [skip_spaces]. rewrite E.
  reflexivity.
Qed.

Lemma users_keys (db : Db) (uid : string) :
  uid ∈ (map_to_list (users db)).*1 <-> is_Some (users db !! uid).
Proof.
  rewrite list_elem_of_fmap. split.
  - intros [[k u] [-> H]]. apply elem_of_map_to_list in H. cbn. eauto.
  - intros [u H]. exists (uid, u). split; [reflexivity |].
    apply elem_of_map_to_list, H.
Qed.

Lemma addressed_ids (message : string) (uids : list string) :
  (map (fun uid => (uid, message)) uids).*1 = uids.
Proof.
  induction uids as [| uid rest IH]; [reflexivity |].
  cbn [map fmap list_fmap fst]. f_equal. exact IH.
Qed.

Lemma on_broadcast_admin (adm capture : string)
    (sendMessage : string -> string -> bool) (db : Db) :
  adm <> "" ->
  on_broadcast (Some adm) sendMessage adm capture db
  = ((map (fun uid => (uid, trim capture)) (map_to_list (users db)).*1
      ++ [(adm, broadcast_sent_text)])%list,
     snd (broadcast_loop sendMessage (map_to_list (users db)).*1 (trim capture))).
Proof.
  intros Hadm. apply truthy_Some in Hadm.
  unfold on_broadcast. rewrite Hadm, String.eqb_refl. cbn [negb orb text].
  rewrite <- (broadcast_loop_calls sendMessage).
  destruct (broadcast_loop sendMessage (map_to_list (users db)).*1 (trim capture)).
  reflexivity.
Qed.

(** X18. Only the admin chat broadcasts: from any other chat, or with no
    [ADMIN_CHAT_ID] configured, the command sends nothing. From the admin
    chat it attempts one send of the trimmed text to every key of [users]
    (each key once, and only those), goes on after a rejected send, and
    ends with the confirmation to the admin whether or not any send went
    through; the ids logged are exactly those whose send was rejected. The
    text sent, when the text of the command is ASCII, neither begins nor
    ends with white space. *)
Theorem broadcast_is_for_the_admin_only
    (adm chatId capture : string) (sendMessage : string -> string -> bool)
    (db : Db) :
  ascii_only capture = true ->
  adm <> "" ->
  let out := on_broadcast (Some adm) sendMessage adm capture db in
  (chatId <> adm ->
   on_broadcast (Some adm) sendMessage chatId capture db = ([], []))
  /\ on_broadcast None sendMessage chatId capture db = ([], [])
  /\ (exists calls,
        fst out = (calls ++ [(adm, broadcast_sent_text)])%list
        /\ NoDup calls.*1
        /\ forall uid m,
             (uid, m) ∈ calls <-> is_Some (users db !! uid) /\ m = trim capture)
  /\ (forall uid,
        uid ∈ snd out
        <-> is_Some (users db !! uid) /\ sendMessage uid (trim capture) = false)
  /\ skip_spaces (trim capture) = trim capture
  /\ trim_end (trim capture) = trim capture.
Proof.
  intros _ Hadm. cbv zeta.
  rewrite (on_broadcast_admin adm capture sendMessage db Hadm).
  cbn [fst snd].
  split; [| split; [reflexivity |]].
  { intros Hne. unfold on_broadcast. cbn [text].
    destruct (String.eqb_spec chatId adm); [contradiction |].
    cbn [negb]. rewrite orb_true_r. reflexivity. }
  split; [| split; [| split]].
  - exists (map (fun uid => (uid, trim capture)) (map_to_list (users db)).*1).
    split; [reflexivity |]. split.
    + rewrite addressed_ids. apply NoDup_fst_map_to_list.
    + intros uid m.
      change (map (fun uid0 : string => (uid0, trim capture)) (map_to_list (users db)).*1)
        with (fmap (fun uid0 : string => (uid0, trim capture))
                (map_to_list (users db)).*1).
      rewrite list_elem_of_fmap. rewrite <- users_keys. split.
      * intros [u [[= -> ->] H]]. auto.
      * intros [H ->]. eauto.
  - intros uid. rewrite broadcast_loop_warned, users_keys. reflexivity.
  - unfold trim. apply trim_end_keeps_start, skip_spaces_idem.
  - unfold trim. apply trim_end_idem.
Qed.

(** X19. The broadcast reaches ids that never talked to the bot: after a
    completion has credited a referrer who has no registration, a
    broadcast attempts a send to that referrer's id, and logs the failure
    when Telegram rejects it; before the credit it did not address that
    id. The install id, the user id and the referrer id are keys, and the
    text of the broadcast is ASCII. *)
Theorem broadcast_reaches_credited_stranger
    (now : Z) (req : Request) (db : Db) (iid uid : string) (usr : User)
    (r adm capture : string) (sendMessage : string -> string -> bool) :
  valid_key iid = true -> valid_key uid = true -> valid_key r = true ->
  ascii_only capture = true ->
  PROVIDER_CALLBACK_SECRET <> "" ->
  signature req = Some (expected_signature req) ->
  expected_signature req <> "" ->
  body_installId (body req) = Some iid -> iid <> "" ->
  body_userRefId (body req) = Some uid -> uid <> "" ->
  okStatuses_has (normalize_status (body_providerStatus (body req))) = true ->
  installs db !! iid = None ->
  users db !! uid = Some usr ->
  referrer usr = Some r -> r <> "" -> r <> uid ->
  users db !! r = None ->
  adm <> "" ->
  sendMessage r (trim capture) = false ->
  let db1 := final (run now (callback req) db) in
  (r ∉ snd (on_broadcast (Some adm) sendMessage adm capture db))
  /\ (r ∈ snd (on_broadcast (Some adm) sendMessage adm capture db1)).
Proof.
  intros _ _ _ _ Hsec Hsig Hexp Hi Hine Hu Hune Hst Hnone Husr Href Hr Hne Hrnone
         Hadm Hsend. cbv zeta.
  rewrite !(on_broadcast_admin adm capture sendMessage _ Hadm). cbn [snd].
  rewrite !broadcast_loop_warned, !users_keys. split.
  - rewrite Hrnone. intros [[? [=]] _].
  - split; [| exact Hsend].
    rewrite (callback_accepted req iid uid) by assumption.
    assert (Hor : or_null (referrer usr) = Some r).
    { rewrite Href. apply or_null_truthy, truthy_Some, Hr. }
    rewrite (process_install_credit _ _ _ _ _ usr r Hnone Husr Hor Hne).
    unfold final. cbn [fst snd users]. rewrite lookup_insert_eq. eauto.
Qed.

(** ** The earlier revision and the current one *)

Lemma legacy_process_install_credit (now : Z) (iid uid st : string) (db : Db)
    (usr : User) (r : string) :
  installs db !! iid = None ->
  users db !! uid = Some usr ->
  or_null (referrer usr) = Some r ->
  r <> uid ->
  legacy_process_install now iid uid st db
  = (legacy_res_ok,
     mkDb
       (<[r := credit_update POINTS_FOR_COMPLETION (users db !! r)]>
          (<[uid := legacy_completed_update (Some usr)]> (users db)))
       (<[r := bumpLeaderboard_update now POINTS_FOR_COMPLETION
                 (match users db !! r with
                  | Some refUser => or_null (username refUser)
                  | None => None
                  end)
                 (leaderboard db !! r)]> (leaderboard db))
       (<[iid := mkInstall iid uid st now]> (installs db))).
Proof.
  intros Hinst Huser Href Hne. unfold legacy_process_install.
  rewrite Hinst. cbv zeta. cbn [users set_installs set_users set_leaderboard leaderboard installs].
  rewrite Huser, Href.
  destruct (String.eqb_spec r uid) as [| _]; [contradiction |]. cbn [negb].
  rewrite (lookup_insert_ne _ uid r) by congruence.
  reflexivity.
Qed.

Lemma legacy_process_install_no_referrer (now : Z) (iid uid st : string) (db : Db)
    (usr : User) :
  installs db !! iid = None ->
  users db !! uid = Some usr ->
  or_null (referrer usr) = None \/ or_null (referrer usr) = Some uid ->
  legacy_process_install now iid uid st db
  = (legacy_res_ok,
     set_users (insert uid (legacy_completed_update (Some usr)))
       (set_installs (insert iid (mkInstall iid uid st now)) db)).
Proof.
  intros Hinst Huser Href. unfold legacy_process_install.
  rewrite Hinst. cbv zeta. cbn [users set_installs]. rewrite Huser.
  destruct Href as [-> | ->]; [reflexivity |].
  rewrite String.eqb_refl. reflexivity.
Qed.

(** X20. With no secret configured, the earlier revision processes a
    callback that carries no valid signature (or none at all) and credits
    the referrer, the install id, the user id and the referrer id being
    keys; the current revision answers the same request with 500 and
    leaves the store as it is. *)
Theorem legacy_callback_open_without_secret
    (now : Z) (req : Request) (db : Db) (iid uid : string) (usr : User)
    (r : string) :
  valid_key iid = true -> valid_key uid = true -> valid_key r = true ->
  PROVIDER_CALLBACK_SECRET = "" ->
  body_installId (body req) = Some iid -> iid <> "" ->
  body_userRefId (body req) = Some uid -> uid <> "" ->
  okStatuses_has (normalize_status (body_providerStatus (body req))) = true ->
  installs db !! iid = None ->
  users db !! uid = Some usr ->
  referrer usr = Some r -> r <> "" -> r <> uid ->
  let old := legacy_callback now req db in
  let new := run now (callback req) db in
  fst old = legacy_res_ok
  /\ is_Some (installs (snd old) !! iid)
  /\ user_points (snd old) r = user_points db r + POINTS_FOR_COMPLETION
  /\ board_points (snd old) r = board_points db r + POINTS_FOR_COMPLETION
  /\ new = (res_secret_not_set, db, []).
Proof.
  intros _ _ _ Hsec Hi Hine Hu Hune Hst Hnone Husr Href Hr Hne. cbv zeta.
  unfold legacy_callback, callback. rewrite Hsec. cbn [truthy String.eqb negb].
  cbv zeta. rewrite Hi, Hu.
  apply truthy_Some in Hine, Hune. rewrite Hine, Hune, Hst. cbn [negb orb text].
  assert (Hor : or_null (referrer usr) = Some r).
  { rewrite Href. apply or_null_truthy, truthy_Some, Hr. }
  rewrite (legacy_process_install_credit now iid uid _ db usr r Hnone Husr Hor Hne).
  cbn [fst snd]. unfold user_points, board_points. cbn [users leaderboard installs].
  rewrite !lookup_insert_eq, credit_update_points, bumpLeaderboard_update_points.
  split; [reflexivity |]. split; [eauto |]. split; [reflexivity |].
  split; reflexivity.
Qed.

Lemma without_flag_completed (cur : option User) :
  without_flag (legacy_completed_update cur) = without_flag (completed_update cur).
Proof. destruct cur; reflexivity. Qed.

(** X21. With a secret configured and no raw body saved, the earlier and
    the current callback take the same decision on every request and every
    store: the same status and flags in the answer, the same ledger, the
    same leaderboard, and the same user records up to the [taskCompleted]
    flag, which only the current revision sets. *)
Theorem legacy_and_current_callbacks_agree (now : Z) (req : Request) (db : Db) :
  PROVIDER_CALLBACK_SECRET <> "" ->
  rawBody req = None ->
  let old := legacy_callback now req db in
  let new := run now (callback req) db in
  legacy_status (fst old) = status (result new)
  /\ legacy_ok (fst old) = ok (result new)
  /\ legacy_ignored (fst old) = ignored (result new)
  /\ legacy_alreadyProcessed (fst old) = alreadyProcessed (result new)
  /\ legacy_note (fst old) = note (result new)
  /\ installs (snd old) = installs (final new)
  /\ leaderboard (snd old) = leaderboard (final new)
  /\ without_flag <$> users (snd old) = without_flag <$> users (final new).
Proof.
  intros Hsec Hraw. cbv zeta. apply truthy_Some in Hsec.
  unfold legacy_callback, callback, expected_signature, signed_text.
  rewrite Hsec, Hraw. cbn [negb].
  destruct (signature_rejected _ _) as [[|] |]; [repeat split | | repeat split].
  cbv zeta.
  destruct (negb (truthy (body_installId (body req)))
            || negb (truthy (body_userRefId (body req)))); [repeat split |].
  set (st := normalize_status (body_providerStatus (body req))).
  destruct (negb (okStatuses_has st)); [repeat split |].
  set (iid := text (body_installId (body req))).
  set (uid := text (body_userRefId (body req))).
  install_paths now iid uid st db.
  - unfold legacy_process_install. rewrite Hinst. repeat split.
  - rewrite (legacy_process_install_no_referrer now iid uid st db usr Hinst Huser
               (or_intror Href)).
    unfold result, final. cbn [fst snd users leaderboard installs set_users set_installs].
    repeat split. rewrite !fmap_insert, without_flag_completed. reflexivity.
  - rewrite (legacy_process_install_credit now iid uid st db usr r Hinst Huser Href Hne).
    unfold result, final. cbn [fst snd users leaderboard installs].
    repeat split. rewrite !fmap_insert, without_flag_completed. reflexivity.
  - rewrite (legacy_process_install_no_referrer now iid uid st db usr Hinst Huser
               (or_introl Href)).
    unfold result, final. cbn [fst snd users leaderboard installs set_users set_installs].
    repeat split. rewrite !fmap_insert, without_flag_completed. reflexivity.
  - unfold legacy_process_install. rewrite Hinst. cbv zeta.
    cbn [users set_installs]. rewrite Huser. repeat split.
Qed.

(** X22. [/start] in the earlier and in the current revision: on every
    store they leave the same username, referrer, join time, points and
    completion count on every user record, and the same ledger and
    leaderboard; for a new user the current revision also stores the [id]
    and [taskCompleted = false], which the earlier one leaves unset. *)
Theorem legacy_and_current_start_agree
    (now : Z) (chatId : string) (ref uname : option string) (db : Db)
    (key : string) :
  let old := legacy_start now chatId ref uname db in
  let new := final (run now (start chatId ref uname) db) in
  (is_Some (users old !! key) <-> is_Some (users new !! key))
  /\ field_of username old key = field_of username new key
  /\ field_of referrer old key = field_of referrer new key
  /\ field_of joinedAt old key = field_of joinedAt new key
  /\ field_of points old key = field_of points new key
  /\ field_of completedInstalls old key = field_of completedInstalls new key
  /\ installs old = installs new
  /\ leaderboard old = leaderboard new
  /\ (users db !! chatId = None ->
      field_of id old chatId = None
      /\ field_of id new chatId = Some chatId
      /\ field_of taskCompleted old chatId = None
      /\ field_of taskCompleted new chatId = Some false).
Proof.
  cbv zeta. unfold legacy_start, start, legacy_upsertUser, upsertUser, call, final.
  cbn [run exec fst snd user_tx users installs leaderboard set_users].
  set (referrerId := match ref with
                     | Some code =>
                         if truthy ref && negb (String.eqb code chatId)
                         then ref else None
                     | None => None
                     end).
  unfold field_of. cbn [users set_users installs leaderboard].
  assert (Hkey : forall A (f : User -> option A),
             (forall cur, f (legacy_upsertUser_update now uname referrerId cur)
                          = f (upsertUser_update now chatId uname referrerId cur)) ->
             match <[chatId := legacy_upsertUser_update now uname referrerId
                                 (users db !! chatId)]> (users db) !! key with
             | Some u => f u
             | None => None
             end
             = match <[chatId := upsertUser_update now chatId uname referrerId
                                   (users db !! chatId)]> (users db) !! key with
               | Some u => f u
               | None => None
               end).
  { intros A f Hf. destruct (String.eqb_spec key chatId) as [-> | Hne].
    - rewrite !lookup_insert_eq. apply Hf.
    - rewrite !lookup_insert_ne by congruence. reflexivity. }
  split.
  { destruct (String.eqb_spec key chatId) as [-> | Hne].
    - rewrite !lookup_insert_eq. split; eauto.
    - rewrite !lookup_insert_ne by congruence. reflexivity. }
  do 5 (split; [apply Hkey; intros [cur |]; reflexivity |]).
  split; [reflexivity |]. split; [reflexivity |].
  intros Hnew. rewrite !lookup_insert_eq, Hnew. repeat split.
Qed.

(** ** The numeric parameter of the leaderboard endpoint *)

Lemma digits_stop (acc : option Z) (rest : string) :
  no_digit_ahead rest = true -> digits acc rest = acc.
Proof.
  destruct rest as [| c rest]; [reflexivity |]. cbn [no_digit_ahead digits].
  intros H. apply negb_true_iff in H. rewrite H. reflexivity.
Qed.

Lemma digits_uint (acc : Z) (d : Decimal.uint) (rest : string) :
  no_digit_ahead rest = true ->
  digits (Some acc) (NilEmpty.string_of_uint d ++ rest) = Some (uint_value acc d).
Proof.
  intros Hrest. revert acc.
  induction d as [| d IH | d IH | d IH | d IH | d IH | d IH | d IH | d IH | d IH | d IH];
    intros acc; cbn [NilEmpty.string_of_uint uint_value];
    [ apply digits_stop, Hrest | .. ];
    rewrite append_cons; cbn [digits];
    (change (is_digit _) with true; cbv iota);
    cbn [or_zero]; rewrite <- IH; reflexivity.
Qed.

Lemma uint_value_of_lu (acc : Z) (d : Decimal.uint) :
  uint_value acc d
  = Z.of_N (Unsigned.of_lu (Decimal.rev d)) + acc * 10 ^ Z.of_N (Unsigned.usize d).
Proof.
  revert acc.
  induction d as [| d IH | d IH | d IH | d IH | d IH | d IH | d IH | d IH | d IH | d IH];
    intros acc; cbn [uint_value];
    [ cbn; lia | .. ];
    rewrite IH; unfold Decimal.rev; cbn [Decimal.revapp];
    match goal with
    | |- context [Unsigned.of_lu (Decimal.revapp d (?c Decimal.Nil))] =>
        rewrite (Unsigned.of_lu_revapp d (c Decimal.Nil))
    end;
    unfold Decimal.rev; cbn [Unsigned.usize];
    rewrite N2Z.inj_succ, Z.pow_succ_r by lia;
    rewrite N2Z.inj_add, N2Z.inj_mul, N2Z.inj_pow;
    cbn [Unsigned.of_lu Unsigned.hd Unsigned.tl];
    rewrite ?N2Z.inj_add, ?N2Z.inj_mul; cbn [Z.of_N]; ring.
Qed.

Lemma uint_value_of_uint (d : Decimal.uint) : uint_value 0 d = Z.of_uint d.
Proof.
  rewrite uint_value_of_lu. unfold Z.of_uint. rewrite Unsigned.of_uint_alt. lia.
Qed.

Lemma parseInt_digit (c : ascii) (s : string) :
  is_digit c = true -> parseInt (String c s) = digits None (String c s).
Proof.
  intros H. unfold parseInt. cbn [skip_spaces].
  assert (Hs : is_space c = false).
  { unfold is_digit, is_space in *. cbv zeta in *.
    apply andb_true_iff in H as [H1 H2]. apply Nat.leb_le in H1, H2.
    apply orb_false_iff. split; [apply Nat.eqb_neq; lia |].
    apply andb_false_iff. right. apply Nat.leb_gt. lia. }
  rewrite Hs.
  destruct c as [[] [] [] [] [] [] [] []]; try reflexivity; discriminate H.
Qed.

Lemma string_of_uint_head (d : Decimal.uint) :
  d <> Decimal.Nil ->
  exists c s, NilEmpty.string_of_uint d = String c s /\ is_digit c = true.
Proof.
  destruct d; [contradiction | ..]; intros _; cbn [NilEmpty.string_of_uint]; eauto.
Qed.

Lemma digits_none_uint (d : Decimal.uint) (rest : string) :
  d <> Decimal.Nil ->
  no_digit_ahead rest = true ->
  digits None (NilEmpty.string_of_uint d ++ rest) = Some (Z.of_uint d).
Proof.
  intros Hd Hrest. rewrite <- uint_value_of_uint.
  destruct d; [contradiction | ..];
    cbn [NilEmpty.string_of_uint uint_value]; rewrite append_cons; cbn [digits];
    (change (is_digit _) with true; cbv iota); cbn [or_zero];
    rewrite (digits_uint _ _ rest Hrest); reflexivity.
Qed.

Lemma show_number_pos (p : positive) :
  NilZero.string_of_uint (Pos.to_uint p) = NilEmpty.string_of_uint (Pos.to_uint p)
  /\ Z.of_uint (Pos.to_uint p) = Z.pos p.
Proof.
  split.
  - pose proof (Unsigned.to_uint_nonnil p) as H.
    destruct (Pos.to_uint p); [contradiction | ..]; reflexivity.
  - unfold Z.of_uint. rewrite Unsigned.of_to. reflexivity.
Qed.

(** [parseInt] reads back what the number prints as, also when other text
    follows. *)
Lemma parseInt_show_number (z : Z) (rest : string) :
  no_digit_ahead rest = true ->
  parseInt (show_number z ++ rest) = Some z.
Proof.
  intros Hrest. unfold show_number.
  destruct z as [| p | p]; cbn [Z.to_int NilZero.string_of_int].
  - change (NilZero.string_of_uint Decimal.zero) with "0".
    rewrite append_cons, parseInt_digit by reflexivity.
    cbn [digits]. change (is_digit "0") with true. cbv iota.
    rewrite digits_stop by exact Hrest. reflexivity.
  - destruct (show_number_pos p) as [-> Hv].
    destruct (string_of_uint_head (Pos.to_uint p) (Unsigned.to_uint_nonnil p))
      as (c & s & Hs & Hc).
    pose proof (digits_none_uint (Pos.to_uint p) rest
                  (Unsigned.to_uint_nonnil p) Hrest) as Hd.
    rewrite Hs in *. rewrite append_cons in *.
    rewrite parseInt_digit by exact Hc. rewrite Hd, Hv. reflexivity.
  - destruct (show_number_pos p) as [-> Hv].
    rewrite append_cons. unfold parseInt. cbn [skip_spaces].
    change (is_space "-") with false. cbv iota.
    rewrite (digits_none_uint (Pos.to_uint p) rest (Unsigned.to_uint_nonnil p) Hrest).
    rewrite Hv. reflexivity.
Qed.

(** X23. [GET /leaderboard/top/:n] reads an integer written in decimal,
    also when other text follows it, clamps it to 1..100, and answers with
    exactly that many entries, or with all of them when the leaderboard
    has fewer. *)
Theorem leaderboard_top_reads_decimal (now : Z) (z : Z) (rest : string) (db : Db) :
  no_digit_ahead rest = true ->
  let param := show_number z ++ rest in
  let n := Z.min 100 (Z.max 1 z) in
  parseInt param = Some z
  /\ effective_n param = Some n
  /\ exists top,
       result (run now (leaderboard_top param) db) = Some top
       /\ List.length top = Nat.min (Z.to_nat n) (size (leaderboard db)).
Proof.
  intros Hrest. cbv zeta.
  pose proof (parseInt_show_number z rest Hrest) as Hparse.
  assert (Hn : effective_n (show_number z ++ rest)
               = Some (Z.min 100 (Z.max 1 z))).
  { unfold effective_n.
    destruct (String.eqb_spec (show_number z ++ rest) "") as [E | _].
    - rewrite E in Hparse. discriminate Hparse.
    - rewrite Hparse. reflexivity. }
  split; [exact Hparse |]. split; [exact Hn |].
  unfold leaderboard_top. rewrite Hn.
  exists (stable_sort by_points_desc
            (limitToLast (Z.min 100 (Z.max 1 z)) (leaderboard db))).
  split; [reflexivity |].
  rewrite stable_sort_length. apply limitToLast_length_eq.
Qed.

(** ** A referral code that is the user's own id with a slash *)

Lemma key_char_not_slash (c : ascii) : key_char c = true -> Ascii.eqb c "/" = false.
Proof.
  intros H. destruct (Ascii.eqb_spec c "/") as [E | _]; [| reflexivity].
  rewrite E in H. discriminate H.
Qed.

Lemma append_assoc_cons (piece : string) (c : ascii) (s : string) :
  (piece ++ String c "") ++ s = piece ++ String c s.
Proof.
  induction piece as [| d piece IH]; [reflexivity |].
  rewrite !append_cons, IH. reflexivity.
Qed.

(** A run of key characters up to a slash, or to the end, is one piece of
    the path. *)
Lemma path_pieces_from_piece (piece s t : string) :
  all_chars key_char s = true ->
  piece ++ s <> "" ->
  path_pieces_from piece (s ++ String "/" t) = (piece ++ s) :: path_pieces_from "" t.
Proof.
  revert piece. induction s as [| c s IH]; intros piece Hs Hne.
  - rewrite append_nil. rewrite append_empty_r in *. cbn [path_pieces_from].
    rewrite Ascii.eqb_refl.
    destruct (String.eqb_spec piece ""); [contradiction | reflexivity].
  - cbn [all_chars] in Hs. apply andb_true_iff in Hs as [Hc Hs].
    rewrite append_cons. cbn [path_pieces_from].
    rewrite (key_char_not_slash c Hc), IH; [| exact Hs |].
    + rewrite append_assoc_cons. reflexivity.
    + rewrite append_assoc_cons. exact Hne.
Qed.

Lemma path_pieces_from_last (piece s : string) :
  all_chars key_char s = true ->
  piece ++ s <> "" ->
  path_pieces_from piece s = [piece ++ s].
Proof.
  revert piece. induction s as [| c s IH]; intros piece Hs Hne.
  - rewrite append_empty_r in *. cbn [path_pieces_from].
    destruct (String.eqb_spec piece ""); [contradiction | reflexivity].
  - cbn [all_chars] in Hs. apply andb_true_iff in Hs as [Hc Hs].
    cbn [path_pieces_from].
    rewrite (key_char_not_slash c Hc), IH; [| exact Hs |].
    + rewrite append_assoc_cons. reflexivity.
    + rewrite append_assoc_cons. exact Hne.
Qed.

(** The location of a key under a collection, and of the key followed by
    a slash: the same two pieces. *)
Lemma path_of_key (collection key : string) :
  all_chars key_char collection = true -> collection <> "" ->
  valid_key key = true ->
  path_pieces (collection ++ "/" ++ key) = [collection; key]
  /\ path_pieces (collection ++ "/" ++ key ++ "/") = [collection; key].
Proof.
  intros Hc Hne Hkey. unfold valid_key in Hkey.
  apply andb_true_iff in Hkey as [Hkey _]. apply andb_true_iff in Hkey as [Hk Hchars].
  apply negb_true_iff in Hk. apply String.eqb_neq in Hk.
  unfold path_pieces.
  assert (Hfirst : forall t, path_pieces_from "" (collection ++ "/" ++ t)
                             = collection :: path_pieces_from "" t).
  { intros t. change (collection ++ "/" ++ t) with (collection ++ String "/" t).
    rewrite (path_pieces_from_piece "" collection t Hc); [reflexivity |].
    rewrite append_nil. exact Hne. }
  rewrite !Hfirst. split; f_equal.
  - rewrite (path_pieces_from_last "" key Hchars); [reflexivity |].
    rewrite append_nil. exact Hk.
  - change (key ++ "/") with (key ++ String "/" "").
    rewrite (path_pieces_from_piece "" key "" Hchars); [reflexivity |].
    rewrite append_nil. exact Hk.
Qed.

Lemma append_slash_differs (s : string) : s ++ "/" <> s.
Proof.
  intros H. apply (f_equal String.length) in H.
  rewrite length_append in H. cbn [String.length] in H. lia.
Qed.

Lemma all_chars_app (f : ascii -> bool) (s t : string) :
  all_chars f (s ++ t) = all_chars f s && all_chars f t.
Proof.
  induction s as [| c s IH]; [reflexivity |].
  rewrite append_cons. cbn [all_chars]. rewrite IH, andb_assoc. reflexivity.
Qed.

(** C4. The two self-referral guards compare strings, the database
    compares paths. A user (the chat id a number, so a key) who is not yet
    registered sends [/start] with their own id followed by a slash: the
    code differs from the id, so it is stored as referrer; the first
    accepted completion of that user is answered [ok] and credits the award
    at [users/<code>] and [leaderboard/<code>], and these paths have the
    pieces of [users/<id>] and [leaderboard/<id>]: the records of the user
    who installed. *)
Theorem self_credit_through_path_alias
    (now1 now2 : Z) (chatId iid : string) (uname : option string)
    (req : Request) (db : Db) :
  valid_key chatId = true -> id_chars chatId = true -> valid_key iid = true ->
  users db !! chatId = None ->
  installs db !! iid = None ->
  PROVIDER_CALLBACK_SECRET <> "" ->
  signature req = Some (expected_signature req) ->
  expected_signature req <> "" ->
  body_installId (body req) = Some iid ->
  body_userRefId (body req) = Some chatId ->
  okStatuses_has (normalize_status (body_providerStatus (body req))) = true ->
  let code := chatId ++ "/" in
  let db1 :=
    final (run now1 (on_start (mkMessage chatId ("/start " ++ code) uname)) db) in
  let x := run now2 (callback req) db1 in
  code <> chatId
  /\ match_start ("/start " ++ code) = Some (Some code)
  /\ referrer_of db1 chatId = Some code
  /\ result x = res_ok
  /\ credits code (journal x) = [POINTS_FOR_COMPLETION]
  /\ bumps code (journal x) = [POINTS_FOR_COMPLETION]
  /\ path_pieces ("users/" ++ code) = path_pieces ("users/" ++ chatId)
  /\ path_pieces ("users/" ++ code) = ["users"; chatId]
  /\ path_pieces ("leaderboard/" ++ code) = path_pieces ("leaderboard/" ++ chatId)
  /\ path_pieces ("leaderboard/" ++ code) = ["leaderboard"; chatId].
Proof.
  intros Hchat Hdigits Hiid Hnew Hnone Hsec Hsig Hexp Hi Hu Hst. cbv zeta.
  assert (Hcid : chatId <> "").
  { intros ->. discriminate Hchat. }
  assert (Hine : iid <> "").
  { intros ->. discriminate Hiid. }
  assert (Hcode : chatId ++ "/" <> "").
  { intros H. apply (f_equal String.length) in H.
    rewrite length_append in H. cbn [String.length] in H. lia. }
  pose proof (append_slash_differs chatId) as Hdiff.
  split; [exact Hdiff |].
  assert (Hm : match_start ("/start " ++ chatId ++ "/") = Some (Some (chatId ++ "/"))).
  { pose proof (match_start_code " " (chatId ++ "/") "") as H.
    rewrite append_empty_r in H.
    change ("/start" ++ " " ++ chatId ++ "/") with ("/start " ++ chatId ++ "/") in H.
    apply H; [discriminate | reflexivity | exact Hcode | | right; reflexivity].
    rewrite all_chars_app, (id_chars_no_space chatId Hdigits). reflexivity. }
  split; [exact Hm |].
  unfold on_start. cbn [msg_text chat_id from_name]. rewrite Hm.
  rewrite (start_new_user_referred now1 chatId (chatId ++ "/") uname db Hnew Hcode Hdiff).
  set (usr := mkUser (Some chatId) (or_null uname) (Some now1) (Some (chatId ++ "/"))
                     (Some 0) (Some 0) (Some false)).
  set (db1 := set_users (insert chatId usr) db).
  assert (Hb : users db1 !! chatId = Some usr).
  { unfold db1. cbn [users set_users]. apply lookup_insert_eq. }
  split; [unfold referrer_of; rewrite Hb; reflexivity |].
  rewrite (callback_accepted req iid chatId) by assumption.
  assert (Hor : or_null (referrer usr) = Some (chatId ++ "/")).
  { cbn [referrer usr]. apply or_null_truthy, truthy_Some, Hcode. }
  rewrite (process_install_credit now2 iid chatId _ db1 usr (chatId ++ "/")
             Hnone Hb Hor Hdiff).
  unfold result, journal. cbn [fst snd].
  split; [reflexivity |].
  split.
  { unfold credits. cbn [flat_map entry_credit app].
    destruct (String.eqb_spec chatId (chatId ++ "/")) as [E | _];
      [symmetry in E; contradiction |].
    rewrite String.eqb_refl. reflexivity. }
  split.
  { unfold bumps. cbn [flat_map entry_bump app].
    rewrite String.eqb_refl. reflexivity. }
  destruct (path_of_key "users" chatId eq_refl ltac:(discriminate) Hchat) as [U1 U2].
  destruct (path_of_key "leaderboard" chatId eq_refl ltac:(discriminate) Hchat)
    as [L1 L2].
  change ("users/" ++ chatId ++ "/") with ("users" ++ "/" ++ chatId ++ "/").
  change ("users/" ++ chatId) with ("users" ++ "/" ++ chatId).
  change ("leaderboard/" ++ chatId ++ "/") with ("leaderboard" ++ "/" ++ chatId ++ "/").
  change ("leaderboard/" ++ chatId) with ("leaderboard" ++ "/" ++ chatId).
  rewrite U1, U2, L1, L2. repeat split.
Qed.

End Handlers.


(** ** The theorems at concrete requests *)


Lemma concurrent_callbacks_both_credit_witness :
  let s :=
    play sample_secret 1 sample_hmac sample_stringify
      (racing_schedule 12 sample_request) (mkServer [] sample_db []) in
  quiescent s = true
  /\ credits "A" (history s) = [1; 1]
  /\ user_points (database s) "A" = 2
  /\ board_points (database s) "A" = 2.
Proof.
  cbv zeta.
  pose proof (concurrent_callbacks_both_credit sample_secret 1 sample_hmac
                sample_stringify 12 sample_request sample_db "I1" "B"
                (mkUser (Some "B") (Some "bob") (Some 11) (Some "A")
                   (Some 0) (Some 0) (Some false)) "A"
                ltac:(discriminate) eq_refl ltac:(vm_compute; discriminate)
                eq_refl ltac:(discriminate) eq_refl ltac:(discriminate) eq_refl
                eq_refl eq_refl eq_refl ltac:(discriminate) ltac:(discriminate))
    as H.
  cbv zeta in H. destruct H as (H0 & _ & _ & H1 & H2 & H3).
  split; [unfold quiescent; rewrite H0; reflexivity |].
  split; [exact H1 |].
  split; [rewrite H2 | rewrite H3]; vm_compute; reflexivity.
Defined.



Lemma non_success_status_ignored_witness :
  run 12 (callback sample_secret 1 sample_hmac sample_stringify sample_request_pending)
      sample_db
  = (res_ignored, sample_db, []).
Proof.
  exact (non_success_status_ignored sample_secret 1 sample_hmac sample_stringify
           12 sample_request_pending sample_db "I1" "B" "pending"
           ltac:(discriminate) eq_refl ltac:(vm_compute; discriminate)
           eq_refl ltac:(discriminate) eq_refl ltac:(discriminate)
           eq_refl ltac:(discriminate) eq_refl).
Defined.

Lemma bad_signature_rejected_witness :
  run 12 (callback sample_secret 1 sample_hmac sample_stringify sample_request_unsigned)
      sample_db
  = (res_bad_signature, sample_db, []).
Proof.
  exact (bad_signature_rejected sample_secret 1 sample_hmac sample_stringify
           12 sample_request_unsigned sample_db
           (or_introl eq_refl) ltac:(vm_compute; discriminate)).
Defined.



(** ** Where the specification and the code differ *)

(** C6 as the specification states it. A valid, signed callback with
    [providerStatus] the empty string: in lower case it is not an accepted
    status, yet [providerStatus || 'completed'] makes it [completed]; the
    install is ledgered and the referrer credited. *)
Lemma empty_status_is_processed :
  let req := sample_request_empty_status in
  let x := run 12 (callback sample_secret 1 sample_hmac sample_stringify req) sample_db in
  signature req = Some (expected_signature sample_secret sample_hmac sample_stringify req)
  /\ body_providerStatus (body req) = Some ""
  /\ okStatuses_has (toLowerCase "") = false
  /\ result x = res_ok
  /\ result x <> res_ignored
  /\ installs (final x) !! "I1" = Some (mkInstall "I1" "B" "completed" 12)
  /\ user_points (final x) "A" = 1
  /\ final x <> sample_db.
Proof.
  cbv zeta.
  split; [vm_compute; reflexivity |]. split; [reflexivity |].
  split; [reflexivity |]. split; [vm_compute; reflexivity |].
  split; [vm_compute; discriminate |]. split; [vm_compute; reflexivity |].
  split; [vm_compute; reflexivity |].
  intros H. apply (f_equal (fun d => installs d !! "I1")) in H.
  vm_compute in H. discriminate.
Qed.

(** C7 as the specification states it. With no shared secret configured,
    a callback without signature header is answered 500, not 403. *)
Lemma unset_secret_answers_500 :
  let x :=
    run 12 (callback "" 1 sample_hmac sample_stringify sample_request_unsigned)
        sample_db in
  signature sample_request_unsigned = None
  /\ result x = res_secret_not_set
  /\ status (result x) = 500
  /\ status (result x) <> 403.
Proof.
  cbv zeta. split; [reflexivity |]. split; [vm_compute; reflexivity |].
  split; [vm_compute; reflexivity |]. vm_compute. discriminate.
Qed.

(** A header of the digest's length that holds a character above 127 makes
    [timingSafeEqual] throw; the [catch] branch answers 500. *)
Lemma non_ascii_signature_answers_500 :
  let b := mkBody (Some "I1") (Some "B") (Some "completed") in
  let sig := String (ascii_of_nat 233) "0123456789abcde" in
  let x :=
    run 12 (callback sample_secret 1 sample_hmac sample_stringify
              (mkRequest (Some sig) None b)) sample_db in
  String.length sig = String.length (sample_hmac sample_secret (sample_stringify b))
  /\ result x = res_caught timingSafeEqual_message
  /\ final x = sample_db.
Proof.
  cbv zeta. split; [reflexivity |]. split; vm_compute; reflexivity.
Qed.

(** ** The further properties at concrete requests *)

Lemma callback_rejection_leaves_store_witness :
  let x :=
    run 12 (callback sample_secret 1 sample_hmac sample_stringify
              sample_request_pending) sample_db in
  ignored (result x) = true
  /\ final x = sample_db
  /\ journal x = [].
Proof.
  cbv zeta.
  pose proof (callback_rejection_leaves_store sample_secret 1 sample_hmac
                sample_stringify 12 sample_request_pending sample_db) as H.
  cbv zeta in H.
  destruct (H ltac:(do 3 right; left; vm_compute; reflexivity)) as (H1 & _ & H2).
  split; [vm_compute; reflexivity |]. split; [exact H1 |].
  apply H2. vm_compute. reflexivity.
Defined.

Lemma missing_fields_rejected_witness :
  run 12 (callback sample_secret 1 sample_hmac sample_stringify
            sample_request_no_install) sample_db
  = (res_missing_fields, sample_db, []).
Proof.
  exact (missing_fields_rejected sample_secret 1 sample_hmac sample_stringify
           12 sample_request_no_install sample_db
           ltac:(discriminate) eq_refl ltac:(vm_compute; discriminate)
           (or_introl eq_refl)).
Defined.

Lemma install_before_registration_is_lost_witness :
  let x1 :=
    run 12 (callback sample_secret 1 sample_hmac sample_stringify sample_request)
        empty_db in
  let db2 := final (run 13 (start "B" (Some "A") (Some "bob")) (final x1)) in
  let x3 :=
    run 14 (callback sample_secret 1 sample_hmac sample_stringify sample_request)
        db2 in
  result x1 = res_user_not_found
  /\ referrer_of db2 "B" = Some "A"
  /\ result x3 = res_alreadyProcessed
  /\ user_points (final x3) "A" = 0
  /\ completed_of (final x3) "B" = 0.
Proof.
  cbv zeta.
  pose proof (install_before_registration_is_lost sample_secret 1 sample_hmac
                sample_stringify 12 13 14 sample_request empty_db "I1" "B" "A"
                (Some "bob")
                eq_refl eq_refl eq_refl
                ltac:(discriminate) eq_refl ltac:(vm_compute; discriminate)
                eq_refl ltac:(discriminate) eq_refl ltac:(discriminate) eq_refl
                eq_refl eq_refl ltac:(discriminate) ltac:(discriminate)) as H.
  cbv zeta in H. destruct H as (H1 & H2 & H3 & _ & H5 & _ & H7).
  split; [exact H1 |]. split; [exact H2 |]. split; [exact H3 |].
  split; [rewrite H5; vm_compute; reflexivity | exact H7].
Defined.

Lemma callback_credits_direct_referrer_only_witness :
  let x :=
    run 12 (callback sample_secret 1 sample_hmac sample_stringify
              sample_request_for_C) sample_db_chain in
  user_points (final x) "A" = user_points sample_db_chain "A"
  /\ board_points (final x) "A" = board_points sample_db_chain "A"
  /\ credits "A" (journal x) = [].
Proof.
  exact (callback_credits_direct_referrer_only sample_secret 1 sample_hmac
           sample_stringify 12 sample_request_for_C sample_db_chain "A"
           eq_refl eq_refl ltac:(vm_compute; reflexivity)
           ltac:(vm_compute; discriminate)).
Defined.

Lemma points_never_decrease_witness :
  let s1 := play sample_secret 1 sample_hmac sample_stringify sample_acts boot in
  let s2 :=
    play sample_secret 1 sample_hmac sample_stringify
      (sample_acts ++ sample_acts_later)%list boot in
  0 <= user_points (database s1) "A"
  /\ 0 <= board_points (database s1) "A"
  /\ user_points (database s1) "A" <= user_points (database s2) "A"
  /\ board_points (database s1) "A" <= board_points (database s2) "A".
Proof.
  exact (points_never_decrease sample_secret 1 sample_hmac sample_stringify
           sample_acts sample_acts_later "A" ltac:(vm_compute; reflexivity)
           ltac:(discriminate)).
Defined.

Lemma display_names_set_once_witness :
  let s2 :=
    play sample_secret 1 sample_hmac sample_stringify
      (sample_acts ++ sample_acts_later)%list boot in
  field_of username (database s2) "A" = Some "alice"
  /\ board_username_of (database s2) "A" = Some "alice".
Proof.
  exact (display_names_set_once sample_secret 1 sample_hmac sample_stringify
           sample_acts sample_acts_later "A" "alice" "A" "alice"
           ltac:(vm_compute; reflexivity)
           ltac:(vm_compute; reflexivity) ltac:(vm_compute; reflexivity)).
Defined.

Lemma ledger_records_well_formed_witness :
  installId (mkInstall "I1" "B" "completed" 12) = "I1"
  /\ In (providerStatus (mkInstall "I1" "B" "completed" 12))
        ["completed"; "approved"; "paid"; "success"].
Proof.
  exact (ledger_records_well_formed sample_secret 1 sample_hmac sample_stringify
           sample_acts "I1" (mkInstall "I1" "B" "completed" 12)
           ltac:(vm_compute; reflexivity) ltac:(vm_compute; reflexivity)).
Defined.

Lemma ledger_immutable_when_sequential_witness :
  let db :=
    fst (replay sample_secret 1 sample_hmac sample_stringify
           [(12, EvCallback sample_request)] sample_db) in
  installs
    (fst (replay sample_secret 1 sample_hmac sample_stringify
            [(13, EvCallback sample_request);
             (14, EvStart "C" (Some "B") None);
             (15, EvCallback sample_request_pending)] db))
  !! "I1"
  = Some (mkInstall "I1" "B" "completed" 12).
Proof.
  exact (ledger_immutable_when_sequential sample_secret 1 sample_hmac
           sample_stringify
           [(13, EvCallback sample_request);
            (14, EvStart "C" (Some "B") None);
            (15, EvCallback sample_request_pending)]
           (fst (replay sample_secret 1 sample_hmac sample_stringify
                   [(12, EvCallback sample_request)] sample_db))
           "I1" (mkInstall "I1" "B" "completed" 12)
           ltac:(vm_compute; reflexivity) ltac:(vm_compute; reflexivity)).
Defined.

Lemma registration_after_credit_keeps_partial_record_witness :
  let db1 :=
    final (run 12 (callback sample_secret 1 sample_hmac sample_stringify
                     sample_request) sample_db_unregistered) in
  let db2 := final (run 13 (start "Z" None (Some "zoe")) db1) in
  users db2 !! "Z"
  = Some (mkUser None (or_null (Some "zoe")) None None (Some 1) None None).
Proof.
  exact (registration_after_credit_keeps_partial_record sample_secret 1
           sample_hmac sample_stringify 12 13 sample_request
           sample_db_unregistered "I1" "B"
           (mkUser (Some "B") (Some "bob") (Some 11) (Some "Z")
              (Some 0) (Some 0) (Some false)) "Z" (Some "zoe")
           eq_refl eq_refl eq_refl
           ltac:(discriminate) eq_refl ltac:(vm_compute; discriminate)
           eq_refl ltac:(discriminate) eq_refl ltac:(discriminate) eq_refl
           eq_refl eq_refl eq_refl ltac:(discriminate) ltac:(discriminate)
           eq_refl).
Defined.

Lemma links_identify_the_user_witness :
  buildOfferLink "1001" <> buildOfferLink "1002"
  /\ fst (buildReferralLink (Some "mybot") GetMeRejects "1001")
     <> fst (buildReferralLink (Some "mybot") GetMeRejects "1002")
  /\ buildOfferLink "1001"
     = "https://your-offer-provider.example.com/install?user=" ++ "1001"
  /\ fst (buildReferralLink (Some "mybot") GetMeRejects "1001")
     = Some ("https://t.me/" ++ "mybot" ++ "?start=" ++ "1001").
Proof.
  exact (links_identify_the_user "1001" "1002" "mybot" GetMeRejects
           ltac:(discriminate) ltac:(discriminate) eq_refl).
Defined.

Lemma bot_username_is_cached_witness :
  let first := buildReferralLink None (GetMeResolves (Some "mybot")) "1001" in
  let second := buildReferralLink (snd first) GetMeRejects "1002" in
  fst first = Some ("https://t.me/" ++ "mybot" ++ "?start=" ++ encodeURIComponent "1001")
  /\ snd first = Some "mybot"
  /\ fst second = Some ("https://t.me/" ++ "mybot" ++ "?start=" ++ encodeURIComponent "1002")
  /\ snd second = Some "mybot"
  /\ buildReferralLink None GetMeRejects "1001" = (None, None).
Proof.
  exact (bot_username_is_cached "mybot" "1001" "1002" GetMeRejects
           ltac:(discriminate)).
Defined.

Lemma start_code_is_captured_witness :
  match_start ("/start" ++ "  " ++ "1001" ++ " now") = Some (Some "1001")
  /\ match_start ("/start" ++ "  ") = Some None
  /\ match_start ("say " ++ "/start" ++ "x") <> None.
Proof.
  apply (start_code_is_captured "  " "1001" " now" "say " "x").
  - reflexivity.
  - reflexivity.
  - reflexivity.
  - reflexivity.
  - discriminate.
  - reflexivity.
  - discriminate.
  - reflexivity.
  - left. vm_compute. discriminate.
Defined.

Lemma referral_link_leads_to_credit_witness :
  let db1 :=
    final (run 12 (on_start (mkMessage "1002" ("/start " ++ "1001") (Some "bob")))
             empty_db) in
  let x :=
    run 13 (callback sample_secret 1 sample_hmac sample_stringify
              sample_request_1002) db1 in
  fst (buildReferralLink (Some "mybot") GetMeRejects "1001")
  = Some ("https://t.me/" ++ "mybot" ++ "?start=" ++ "1001")
  /\ referrer_of db1 "1002" = Some "1001"
  /\ result x = res_ok
  /\ completed_of (final x) "1002" = 1
  /\ user_points (final x) "1001" = user_points empty_db "1001" + 1
  /\ board_points (final x) "1001" = board_points empty_db "1001" + 1.
Proof.
  exact (referral_link_leads_to_credit sample_secret 1 sample_hmac
           sample_stringify 12 13 "mybot" "1001" "1002" "I9" GetMeRejects
           (Some "bob") sample_request_1002 empty_db
           eq_refl eq_refl eq_refl
           ltac:(discriminate) ltac:(discriminate) eq_refl ltac:(discriminate)
           eq_refl
           ltac:(discriminate) eq_refl ltac:(vm_compute; discriminate)
           eq_refl ltac:(discriminate) eq_refl ltac:(discriminate) eq_refl
           eq_refl).
Defined.

Lemma leaderboard_top_holds_the_highest_witness :
  exists top,
    result (run 12 (leaderboard_top "2") sample_board) = Some top
    /\ map fst top = ["B"; "A"]
    /\ List.length top = 2%nat.
Proof.
  destruct (leaderboard_top_holds_the_highest 12 "2" 2 sample_board eq_refl)
    as (top & H1 & _ & H2 & _).
  exists top. split; [exact H1 |]. split; [| exact H2].
  vm_compute in H1. injection H1 as <-. vm_compute. reflexivity.
Defined.

Lemma broadcast_is_for_the_admin_only_witness :
  on_broadcast (Some "900") (fun _ _ => false) "1001" "  hello " sample_db = ([], [])
  /\ on_broadcast None (fun _ _ => false) "1001" "  hello " sample_db = ([], [])
  /\ ("A" ∈ snd (on_broadcast (Some "900") (fun _ _ => false) "900" "  hello " sample_db))
  /\ trim_end (trim "  hello ") = trim "  hello ".
Proof.
  pose proof (broadcast_is_for_the_admin_only "900" "1001" "  hello "
                (fun _ _ => false) sample_db eq_refl ltac:(discriminate)) as H.
  cbv zeta in H. destruct H as (H1 & H2 & _ & H3 & _ & H4).
  split; [apply H1; discriminate |]. split; [exact H2 |].
  split; [| exact H4].
  apply H3. split; [| reflexivity]. vm_compute. eauto.
Defined.

Lemma broadcast_reaches_credited_stranger_witness :
  let db1 :=
    final (run 12 (callback sample_secret 1 sample_hmac sample_stringify
                     sample_request) sample_db_unregistered) in
  ("Z" ∉ snd (on_broadcast (Some "900") (fun _ _ => false) "900" "hello"
                sample_db_unregistered))
  /\ ("Z" ∈ snd (on_broadcast (Some "900") (fun _ _ => false) "900" "hello" db1)).
Proof.
  exact (broadcast_reaches_credited_stranger sample_secret 1 sample_hmac
           sample_stringify 12 sample_request sample_db_unregistered "I1" "B"
           (mkUser (Some "B") (Some "bob") (Some 11) (Some "Z")
              (Some 0) (Some 0) (Some false)) "Z" "900" "hello"
           (fun _ _ => false)
           eq_refl eq_refl eq_refl eq_refl
           ltac:(discriminate) eq_refl ltac:(vm_compute; discriminate)
           eq_refl ltac:(discriminate) eq_refl ltac:(discriminate) eq_refl
           eq_refl eq_refl eq_refl ltac:(discriminate) ltac:(discriminate)
           eq_refl ltac:(discriminate) eq_refl).
Defined.

Lemma legacy_callback_open_without_secret_witness :
  let old :=
    legacy_callback "" 1 sample_hmac sample_stringify 12 sample_request_unsigned
      sample_db in
  let new :=
    run 12 (callback "" 1 sample_hmac sample_stringify sample_request_unsigned)
        sample_db in
  fst old = legacy_res_ok
  /\ is_Some (installs (snd old) !! "I1")
  /\ user_points (snd old) "A" = user_points sample_db "A" + 1
  /\ board_points (snd old) "A" = board_points sample_db "A" + 1
  /\ new = (res_secret_not_set, sample_db, []).
Proof.
  exact (legacy_callback_open_without_secret "" 1 sample_hmac sample_stringify
           12 sample_request_unsigned sample_db "I1" "B"
           (mkUser (Some "B") (Some "bob") (Some 11) (Some "A")
              (Some 0) (Some 0) (Some false)) "A"
           eq_refl eq_refl eq_refl
           eq_refl eq_refl ltac:(discriminate) eq_refl ltac:(discriminate)
           eq_refl eq_refl eq_refl eq_refl ltac:(discriminate)
           ltac:(discriminate)).
Defined.

Lemma legacy_and_current_callbacks_agree_witness :
  let old :=
    legacy_callback sample_secret 1 sample_hmac sample_stringify 12
      sample_request sample_db in
  let new :=
    run 12 (callback sample_secret 1 sample_hmac sample_stringify sample_request)
        sample_db in
  legacy_status (fst old) = status (result new)
  /\ installs (snd old) = installs (final new)
  /\ leaderboard (snd old) = leaderboard (final new)
  /\ without_flag <$> users (snd old) = without_flag <$> users (final new).
Proof.
  pose proof (legacy_and_current_callbacks_agree sample_secret 1 sample_hmac
                sample_stringify 12 sample_request sample_db
                ltac:(discriminate) eq_refl) as H.
  cbv zeta in H. destruct H as (H1 & _ & _ & _ & _ & H2 & H3 & H4).
  cbv zeta. split; [exact H1 |]. split; [exact H2 |]. split; [exact H3 | exact H4].
Defined.

Lemma leaderboard_top_reads_decimal_witness :
  parseInt (show_number 2 ++ "abc") = Some 2
  /\ effective_n (show_number 2 ++ "abc") = Some (Z.min 100 (Z.max 1 2))
  /\ exists top,
       result (run 12 (leaderboard_top (show_number 2 ++ "abc")) sample_board)
       = Some top
       /\ List.length top
          = Nat.min (Z.to_nat (Z.min 100 (Z.max 1 2))) (size (leaderboard sample_board)).
Proof.
  exact (leaderboard_top_reads_decimal 12 2 "abc" sample_board eq_refl).
Defined.

Lemma self_credit_through_path_alias_witness :
  let code := "1002" ++ "/" in
  let db1 :=
    final (run 12 (on_start (mkMessage "1002" ("/start " ++ code) (Some "bob")))
             empty_db) in
  let x :=
    run 13 (callback sample_secret 1 sample_hmac sample_stringify
              sample_request_1002) db1 in
  code <> "1002"
  /\ match_start ("/start " ++ code) = Some (Some code)
  /\ referrer_of db1 "1002" = Some code
  /\ result x = res_ok
  /\ credits code (journal x) = [1]
  /\ bumps code (journal x) = [1]
  /\ path_pieces ("users/" ++ code) = path_pieces ("users/" ++ "1002")
  /\ path_pieces ("users/" ++ code) = ["users"; "1002"]
  /\ path_pieces ("leaderboard/" ++ code) = path_pieces ("leaderboard/" ++ "1002")
  /\ path_pieces ("leaderboard/" ++ code) = ["leaderboard"; "1002"].
Proof.
  apply (self_credit_through_path_alias sample_secret 1 sample_hmac
           sample_stringify 12 13 "1002" "I9" (Some "bob") sample_request_1002
           empty_db).
  - reflexivity.
  - reflexivity.
  - reflexivity.
  - reflexivity.
  - reflexivity.
  - discriminate.
  - reflexivity.
  - vm_compute. discriminate.
  - reflexivity.
  - reflexivity.
  - reflexivity.
Defined.

Lemma callback_keeps_identity_witness :
  let x :=
    run 12 (callback sample_secret 1 sample_hmac sample_stringify sample_request)
        sample_db in
  field_of id (final x) "A" = field_of id sample_db "A"
  /\ field_of username (final x) "A" = field_of username sample_db "A"
  /\ field_of joinedAt (final x) "A" = field_of joinedAt sample_db "A"
  /\ field_of referrer (final x) "A" = field_of referrer sample_db "A"
  /\ (users (final x) !! "A" = None -> users sample_db !! "A" = None).
Proof.
  apply (callback_keeps_identity sample_secret 1 sample_hmac sample_stringify
           12 sample_request sample_db "A").
  - reflexivity.
  - reflexivity.
  - vm_compute. reflexivity.
Defined.

Lemma completion_count_never_decreases_witness :
  let s1 := play sample_secret 1 sample_hmac sample_stringify sample_acts boot in
  let s2 :=
    play sample_secret 1 sample_hmac sample_stringify
      (sample_acts ++ sample_acts_later)%list boot in
  (field_of taskCompleted (database s1) "B" = Some true
   <-> 0 < completed_of (database s1) "B")
  /\ 0 <= completed_of (database s1) "B"
  /\ completed_of (database s1) "B" <= completed_of (database s2) "B".
Proof.
  apply (completion_count_never_decreases sample_secret 1 sample_hmac
           sample_stringify sample_acts sample_acts_later "B").
  vm_compute. reflexivity.
Defined.
